(** * The camera screen controller of [src/App.tsx]

    A shallow embedding of the single React component [App]: its session
    state (the four [useState] cells), its intent handlers, the two
    recording callbacks, and the element tree it renders.

    - JavaScript numbers are IEEE-754 binary64 values, modelled with the
      standard library's executable specification [spec_float]
      (precision 53, [emax] 1024).
    - Handlers run in a small monad that threads the session state and a
      log of the calls made to the external collaborators (camera,
      filesystem, alert, console) and that can complete abruptly, as a
      rejected [await] does inside [try].
    - The result of each external call is not decided by this file: it is
      read from an [External] record, over which the theorems quantify.
    - A handler is run to completion as one step.  The component writes
      its state only through the setters, each handler reads the state of
      the render that bound it, and the two recording callbacks are
      separate steps that the camera triggers later. *)

From Stdlib Require Import List String Ascii Bool ZArith Lia.
From Stdlib Require Import Floats.SpecFloat.
Import ListNotations.
Local Open Scope string_scope.

(** ** JavaScript values used by the component *)

Module JS.

(** [s.endsWith(suffix)] *)
Definition endsWith (s suffix : string) : bool :=
  let n := String.length s in
  let k := String.length suffix in
  (k <=? n)%nat && (substring (n - k) k s =? suffix).

(** Truthiness of a [string | null] value: [null] and [''] are falsy. *)
Definition truthy (v : option string) : bool :=
  match v with
  | None => false
  | Some s => negb (s =? "")
  end.

(** Numbers: binary64. *)
Definition number := spec_float.
Definition prec : Z := 53.
Definition emax : Z := 1024.

Definition add (x y : number) : number := SFadd prec emax x y.
Definition sub (x y : number) : number := SFsub prec emax x y.
Definition ltb (x y : number) : bool := SFltb x y.
Definition leb (x y : number) : bool := SFleb x y.

Definition is_nan (x : number) : bool :=
  match x with S754_nan => true | _ => false end.
Definition is_pos_zero (x : number) : bool :=
  match x with S754_zero false => true | _ => false end.
Definition is_neg_zero (x : number) : bool :=
  match x with S754_zero true => true | _ => false end.

(** The literals [0], [1] and [0.1] (the binary64 number nearest to one
    tenth, 0x3FB999999999999A). *)
Definition zero : number := S754_zero false.
Definition one : number := S754_finite false 4503599627370496 (-52).
Definition tenth : number := S754_finite false 7205759403792794 (-56).

(** [Math.min(a, b)], ECMAScript 21.3.2.25: NaN if an argument is NaN;
    a running lowest value starting at +Infinity, where -0 is taken to
    be lower than +0. *)
Definition min_step (lowest x : number) : number :=
  if is_neg_zero x && is_pos_zero lowest then x
  else if ltb x lowest then x else lowest.

Definition Math_min (a b : number) : number :=
  if is_nan a || is_nan b then S754_nan
  else min_step (min_step (S754_infinity false) a) b.

(** [Math.max(a, b)], ECMAScript 21.3.2.24, the mirror image. *)
Definition max_step (highest x : number) : number :=
  if is_pos_zero x && is_neg_zero highest then x
  else if ltb highest x then x else highest.

Definition Math_max (a b : number) : number :=
  if is_nan a || is_nan b then S754_nan
  else max_step (max_step (S754_infinity true) a) b.

End JS.

(** ** Session state: the four [useState] cells of [App] *)

Inductive CameraPosition : Type := front | back.

Record Session : Type := mkSession {
  cameraType : CameraPosition;
  zoom : JS.number;
  mediaUri : option string;
  isRecording : bool
}.

(** The initial values passed to [useState]. *)
Definition initial : Session :=
  {| cameraType := back; zoom := JS.zero; mediaUri := None; isRecording := false |}.

Definition setCameraType (f : CameraPosition -> CameraPosition) (s : Session) : Session :=
  {| cameraType := f (cameraType s); zoom := zoom s;
     mediaUri := mediaUri s; isRecording := isRecording s |}.

Definition setZoom (f : JS.number -> JS.number) (s : Session) : Session :=
  {| cameraType := cameraType s; zoom := f (zoom s);
     mediaUri := mediaUri s; isRecording := isRecording s |}.

Definition setMediaUri (v : option string) (s : Session) : Session :=
  {| cameraType := cameraType s; zoom := zoom s;
     mediaUri := v; isRecording := isRecording s |}.

Definition setIsRecording (b : bool) (s : Session) : Session :=
  {| cameraType := cameraType s; zoom := zoom s;
     mediaUri := mediaUri s; isRecording := b |}.

(** ** External collaborators *)

(** A thrown value / rejection reason. *)
Definition Error := string.

(** How an awaited call settles. *)
Inductive Settled (A : Type) : Type :=
| Resolved (a : A)
| Rejected (e : Error).
Arguments Resolved {A} a.
Arguments Rejected {A} e.

(** What the collaborators answer during one handler run. *)
Record External : Type := mkExternal {
  camera_takePhoto : Settled string;              (* resolves to [photo.path] *)
  camera_startRecording : Settled unit;
  camera_stopRecording : Settled unit;
  RNFS_mkdir : string -> Settled unit;
  RNFS_moveFile : string -> string -> Settled unit;
  DocumentDirectoryPath : string;
  Date_toISOString : string                       (* [new Date().toISOString()] *)
}.

(** The calls a handler makes, in the order it makes them. *)
Inductive Effect : Type :=
| CameraTakePhoto
| CameraStartRecording
| CameraStopRecording
| Mkdir (path : string)
| MoveFile (src dst : string)
| ConsoleError (message : string) (error : Error)
| AlertAlert (title message : string).

(** ** The handler monad: session state, effect log, abrupt completion *)

Inductive Completion (A : Type) : Type :=
| Normal (a : A)
| Throw (e : Error).
Arguments Normal {A} a.
Arguments Throw {A} e.

Definition Handler (A : Type) : Type :=
  Session -> list Effect -> Completion A * Session * list Effect.

Definition ret {A} (a : A) : Handler A :=
  fun s l => (Normal a, s, l).

Definition bind {A B} (m : Handler A) (k : A -> Handler B) : Handler B :=
  fun s l =>
    match m s l with
    | (Normal a, s', l') => k a s' l'
    | (Throw e, s', l') => (Throw e, s', l')
    end.

(** [try { body } catch (error) { handler }] *)
Definition try_catch {A} (body : Handler A) (handler : Error -> Handler A) : Handler A :=
  fun s l =>
    match body s l with
    | (Normal a, s', l') => (Normal a, s', l')
    | (Throw e, s', l') => handler e s' l'
    end.

Definition update (f : Session -> Session) : Handler unit :=
  fun s l => (Normal tt, f s, l).

Definition perform (e : Effect) : Handler unit :=
  fun s l => (Normal tt, s, (l ++ [e])%list).

(** [await call]: the call is made, then its settlement is observed. *)
Definition await {A} (e : Effect) (r : Settled A) : Handler A :=
  fun s l =>
    match r with
    | Resolved a => (Normal a, s, (l ++ [e])%list)
    | Rejected err => (Throw err, s, (l ++ [e])%list)
    end.

Declare Scope handler_scope.
Delimit Scope handler_scope with handler.
Notation "x <- m ;; k" := (bind m (fun x => k))
  (at level 61, m at next level, right associativity) : handler_scope.
Notation "m ;; k" := (bind m (fun _ => k))
  (at level 61, right associativity) : handler_scope.
Local Open Scope handler_scope.

(** Running a handler from a session with an empty log. *)
Definition run {A} (h : Handler A) (s : Session) : Completion A * Session * list Effect :=
  h s [].

Definition final_state {A} (r : Completion A * Session * list Effect) : Session :=
  snd (fst r).

Definition effects {A} (r : Completion A * Session * list Effect) : list Effect :=
  snd r.

Definition completion {A} (r : Completion A * Session * list Effect) : Completion A :=
  fst (fst r).

(** ** Intent handlers (App.tsx lines 23-90) *)

Definition toggleCameraType : Handler unit :=
  update (setCameraType (fun prevType =>
    match prevType with back => front | front => back end)).

Definition zoomIn : Handler unit :=
  update (setZoom (fun prevZoom => JS.Math_min (JS.add prevZoom JS.tenth) JS.one)).

Definition zoomOut : Handler unit :=
  update (setZoom (fun prevZoom => JS.Math_max (JS.sub prevZoom JS.tenth) JS.zero)).

(** The two callbacks handed to the camera in [options]; the camera calls
    one of them later, outside the handler that registered them. *)
Definition onRecordingFinished (video_path : string) : Handler unit :=
  update (setMediaUri (Some ("file://" ++ video_path))) ;;
  update (setIsRecording false).

Definition onRecordingError (error : Error) : Handler unit :=
  perform (ConsoleError "Failed to record video:" error) ;;
  perform (AlertAlert "Error" "Failed to record video.") ;;
  update (setIsRecording false).

(** [cameraRef_current] tells whether [cameraRef.current] is non-null,
    that is, whether a [Camera] element is mounted. *)
Definition startRecording (cameraRef_current : bool) (ext : External) : Handler unit :=
  if cameraRef_current then
    try_catch
      (update (setIsRecording true) ;;
       await CameraStartRecording (camera_startRecording ext))
      (fun error =>
         perform (ConsoleError "Failed to start recording:" error) ;;
         perform (AlertAlert "Error" "Failed to start recording.") ;;
         update (setIsRecording false))
  else ret tt.

(** [isRecording] is the value captured by the render that bound the
    handler, which is the session the handler starts from. *)
Definition stopRecording (cameraRef_current : bool) (ext : External) : Handler unit :=
  fun s =>
    (if cameraRef_current && isRecording s then
       try_catch
         (await CameraStopRecording (camera_stopRecording ext))
         (fun error =>
            perform (ConsoleError "Failed to stop recording:" error) ;;
            perform (AlertAlert "Error" "Failed to stop recording."))
     else ret tt) s.

Definition captureFolderPath (ext : External) : string :=
  DocumentDirectoryPath ext ++ "/capture".

Definition newFilePath (ext : External) : string :=
  captureFolderPath ext ++ "/" ++ Date_toISOString ext ++ ".jpg".

Definition takePhoto (cameraRef_current : bool) (ext : External) : Handler unit :=
  if cameraRef_current then
    try_catch
      (filePath <- await CameraTakePhoto (camera_takePhoto ext) ;;
       await (Mkdir (captureFolderPath ext)) (RNFS_mkdir ext (captureFolderPath ext)) ;;
       await (MoveFile filePath (newFilePath ext))
             (RNFS_moveFile ext filePath (newFilePath ext)) ;;
       update (setMediaUri (Some ("file://" ++ newFilePath ext))))
      (fun error =>
         perform (ConsoleError "Failed to take photo:" error) ;;
         perform (AlertAlert "Error" "Failed to capture photo."))
  else ret tt.

(** The Back button's [() => setMediaUri(null)]. *)
Definition clearCapture : Handler unit :=
  update (setMediaUri None).

(** ** The rendered view (App.tsx lines 92-169)

    Element trees without their style props.  [{c && x}] contributes [x]
    when [c] is truthy and nothing otherwise; the fragment [<>...</>]
    contributes its children to the enclosing [View]. *)

Inductive Callback : Type :=
| cb_toggleCameraType
| cb_zoomIn
| cb_zoomOut
| cb_startRecording
| cb_stopRecording
| cb_takePhoto
| cb_clearCapture.

(** What [useCameraDevice] returns when it does not return [undefined]. *)
Record CameraDevice : Type := mkDevice { device_id : string }.

#[local] Set Warnings "-register-all".
Inductive Element : Type :=
| View (children : list Element)
| Text (content : string)
| Image (uri : string)
| Video (uri : string) (controls : bool)
| Camera (device : CameraDevice) (photo video isActive : bool) (zoom_prop : JS.number)
| TouchableOpacity (onPress : Callback) (children : list Element).

Definition when (c : bool) (xs : list Element) : list Element :=
  if c then xs else [].

Definition render_media (device : CameraDevice) (s : Session) : Element :=
  match mediaUri s with
  | Some uri =>
      if JS.truthy (Some uri) then
        if JS.endsWith uri ".jpg" then Image uri
        else Video uri true
      else Camera device true true true (zoom s)
  | None => Camera device true true true (zoom s)
  end.

Definition render_controls (s : Session) : list Element :=
  [ TouchableOpacity cb_toggleCameraType [Text "Switch"];
    TouchableOpacity cb_zoomIn [Text "Zoom In"];
    TouchableOpacity cb_zoomOut [Text "Zoom Out"];
    (if isRecording s
     then TouchableOpacity cb_stopRecording [Text "Stop Recording"]
     else TouchableOpacity cb_startRecording [Text "Record Video"]);
    TouchableOpacity cb_takePhoto [Text "Capture Photo"] ].

Definition render (hasPermission : bool)
    (useCameraDevice : CameraPosition -> option CameraDevice)
    (s : Session) : Element :=
  if negb hasPermission then
    View [Text "Please grant camera permission."]
  else
    match useCameraDevice (cameraType s) with
    | None => View [Text "No camera available."]
    | Some device =>
        View ([render_media device s]
              ++ when (negb (JS.truthy (mediaUri s))) (render_controls s)
              ++ when (JS.truthy (mediaUri s))
                   [TouchableOpacity cb_clearCapture [Text "Back"]])%list
    end.

(** Queries on element trees. *)
Fixpoint mounts_camera (e : Element) : bool :=
  match e with
  | Camera _ _ _ _ _ => true
  | View cs | TouchableOpacity _ cs => existsb mounts_camera cs
  | _ => false
  end.

Fixpoint shows_image (e : Element) : bool :=
  match e with
  | Image _ => true
  | View cs | TouchableOpacity _ cs => existsb shows_image cs
  | _ => false
  end.

(** A video player with its transport controls enabled. *)
Fixpoint shows_video_controls (e : Element) : bool :=
  match e with
  | Video _ c => c
  | View cs | TouchableOpacity _ cs => existsb shows_video_controls cs
  | _ => false
  end.

Fixpoint callbacks (e : Element) : list Callback :=
  match e with
  | TouchableOpacity cb cs => cb :: flat_map callbacks cs
  | View cs => flat_map callbacks cs
  | _ => []
  end.

(** Live preview: the camera is mounted and no captured asset is shown. *)
Definition live_preview (e : Element) : bool :=
  mounts_camera e && negb (shows_image e) && negb (shows_video_controls e).

(** [cameraRef.current] is attached by the [Camera] element of the last
    render and is [null] when that render mounted none. *)
Definition cameraRef_of (hasPermission : bool)
    (useCameraDevice : CameraPosition -> option CameraDevice)
    (s : Session) : bool :=
  mounts_camera (render hasPermission useCameraDevice s).

(** The handler bound to each control. *)
Definition press (cb : Callback) (cameraRef_current : bool) (ext : External) : Handler unit :=
  match cb with
  | cb_toggleCameraType => toggleCameraType
  | cb_zoomIn => zoomIn
  | cb_zoomOut => zoomOut
  | cb_startRecording => startRecording cameraRef_current ext
  | cb_stopRecording => stopRecording cameraRef_current ext
  | cb_takePhoto => takePhoto cameraRef_current ext
  | cb_clearCapture => clearCapture
  end.

(** ** User-driven runs

    An input is a tap on a control of the current view, or the camera
    calling back one of the two recording callbacks.  A tap on a control
    that the current view does not contain is not an input the screen can
    receive: [step] returns [None] for it. *)

Inductive Input : Type :=
| Tap (cb : Callback) (ext : External)
| RecordingFinished (video_path : string)
| RecordingError (error : Error).

Definition Callback_eqb (a b : Callback) : bool :=
  match a, b with
  | cb_toggleCameraType, cb_toggleCameraType
  | cb_zoomIn, cb_zoomIn
  | cb_zoomOut, cb_zoomOut
  | cb_startRecording, cb_startRecording
  | cb_stopRecording, cb_stopRecording
  | cb_takePhoto, cb_takePhoto
  | cb_clearCapture, cb_clearCapture => true
  | _, _ => false
  end.

Section Screen.

Variable hasPermission : bool.
Variable useCameraDevice : CameraPosition -> option CameraDevice.

Definition offered (cb : Callback) (s : Session) : bool :=
  existsb (Callback_eqb cb) (callbacks (render hasPermission useCameraDevice s)).

Definition step (w : Session * list Effect) (i : Input)
    : option (Session * list Effect) :=
  let '(s, l) := w in
  match i with
  | Tap cb ext =>
      if offered cb s then
        let '(_, s', l') :=
          press cb (cameraRef_of hasPermission useCameraDevice s) ext s l in
        Some (s', l')
      else None
  | RecordingFinished p =>
      let '(_, s', l') := onRecordingFinished p s l in Some (s', l')
  | RecordingError e =>
      let '(_, s', l') := onRecordingError e s l in Some (s', l')
  end.

Fixpoint steps (w : Session * list Effect) (inputs : list Input)
    : option (Session * list Effect) :=
  match inputs with
  | [] => Some w
  | i :: rest =>
      match step w i with
      | Some w' => steps w' rest
      | None => None
      end
  end.

End Screen.

(** Zoom adjustments as data, for sequences of them. *)
Inductive ZoomOp : Type := ZoomIn | ZoomOut.

Definition apply_zoom (op : ZoomOp) : Handler unit :=
  match op with ZoomIn => zoomIn | ZoomOut => zoomOut end.

Definition zoom_after (ops : list ZoomOp) (s : Session) : Session :=
  fold_left (fun st op => final_state (run (apply_zoom op) st)) ops s.

(** The closed interval [0, 1] on binary64 numbers. *)
Definition in_unit_interval (z : JS.number) : bool :=
  JS.leb JS.zero z && JS.leb z JS.one.

(** When one of the steps that [takePhoto] runs rejects: the capture, or
    else the directory creation, or else the move. *)
Definition is_rejected {A} (r : Settled A) : bool :=
  match r with Rejected _ => true | Resolved _ => false end.

Definition capture_step_fails (ext : External) : bool :=
  match camera_takePhoto ext with
  | Rejected _ => true
  | Resolved filePath =>
      is_rejected (RNFS_mkdir ext (captureFolderPath ext))
      || is_rejected (RNFS_moveFile ext filePath (newFilePath ext))
  end.

(** Concrete collaborators used in the examples below. *)
Definition ext_ok : External :=
  {| camera_takePhoto := Resolved "/tmp/photo-1.jpg";
     camera_startRecording := Resolved tt;
     camera_stopRecording := Resolved tt;
     RNFS_mkdir := fun _ => Resolved tt;
     RNFS_moveFile := fun _ _ => Resolved tt;
     DocumentDirectoryPath := "/data/Documents";
     Date_toISOString := "2024-05-01T10:20:30.000Z" |}.

Definition ext_move_fails : External :=
  {| camera_takePhoto := Resolved "/tmp/photo-1.jpg";
     camera_startRecording := Resolved tt;
     camera_stopRecording := Resolved tt;
     RNFS_mkdir := fun _ => Resolved tt;
     RNFS_moveFile := fun _ _ => Rejected "ENOENT";
     DocumentDirectoryPath := "/data/Documents";
     Date_toISOString := "2024-05-01T10:20:30.000Z" |}.

Definition ext_start_fails : External :=
  {| camera_takePhoto := Resolved "/tmp/photo-1.jpg";
     camera_startRecording := Rejected "camera/unavailable";
     camera_stopRecording := Resolved tt;
     RNFS_mkdir := fun _ => Resolved tt;
     RNFS_moveFile := fun _ _ => Resolved tt;
     DocumentDirectoryPath := "/data/Documents";
     Date_toISOString := "2024-05-01T10:20:30.000Z" |}.

Definition any_device : CameraPosition -> option CameraDevice :=
  fun _ => Some {| device_id := "device-0" |}.

(** The session while a recording is in progress. *)
Definition recording : Session := setIsRecording true initial.

(** The invariant carried along a sequence of zoom adjustments.  Besides
    membership in the interval as [leb] decides it, the magnitude
    [m * 2^e] of a finite number is at most one; for a valid binary64
    number the second part follows from the first. *)
Definition magnitude_le_one (z : JS.number) : Prop :=
  match z with
  | S754_zero _ => True
  | S754_finite _ m e => (e <= 0 /\ Zpos m <= 2 ^ (- e))%Z
  | _ => False
  end.

Definition zoom_ok (z : JS.number) : Prop :=
  in_unit_interval z = true /\ magnitude_le_one z.

(** How many times a log calls the camera's [startRecording]. *)
Definition is_start (e : Effect) : bool :=
  match e with CameraStartRecording => true | _ => false end.

Definition start_calls (l : list Effect) : nat :=
  List.length (filter is_start l).

(** ** [new Date().toISOString()] *)

Definition msPerDay : Z := 86400000%Z.

(** The character of a decimal digit: the last digit of [d]. *)
Definition digit_char (d : Z) : ascii :=
  ascii_of_nat (48 + Z.to_nat (d mod 10)%Z).

Definition pad2 (n : Z) : string :=
  String (digit_char (n / 10)%Z) (String (digit_char n) "").

Definition pad3 (n : Z) : string :=
  String (digit_char (n / 100)%Z) (pad2 n).

Definition pad4 (n : Z) : string :=
  String (digit_char (n / 1000)%Z) (pad3 n).

Definition pad6 (n : Z) : string :=
  String (digit_char (n / 100000)%Z) (String (digit_char (n / 10000)%Z) (pad4 n)).

(** Year, month (1-12) and day of the month (1-31) of a day number counted
    from 1970-01-01, in the proleptic Gregorian calendar. *)
Definition civil_from_days (days : Z) : Z * Z * Z :=
  (let z := days + 719468 in
   let era := z / 146097 in
   let doe := z - era * 146097 in
   let yoe := (doe - doe / 1460 + doe / 36524 - doe / 146096) / 365 in
   let doy := doe - (365 * yoe + yoe / 4 - yoe / 100) in
   let mp := (5 * doy + 2) / 153 in
   let d := doy - (153 * mp + 2) / 5 + 1 in
   let m := if mp <? 10 then mp + 3 else mp - 9 in
   (yoe + era * 400 + (if m <=? 2 then 1 else 0), m, d))%Z.

(** Four digits for the years 0 to 9999, else a sign and six digits. *)
Definition year_string (y : Z) : string :=
  if (0 <=? y)%Z && (y <=? 9999)%Z then pad4 y
  else String (if (y <? 0)%Z then "-" else "+")%char (pad6 (Z.abs y)).

(** [toISOString] of a date whose time value is [tv] milliseconds since
    the epoch: [YYYY-MM-DDTHH:mm:ss.sssZ] in UTC. *)
Definition toISOString (tv : Z) : string :=
  let tod := (tv mod msPerDay)%Z in
  let '(y, m, d) := civil_from_days (tv / msPerDay)%Z in
  year_string y ++ "-" ++ pad2 m ++ "-" ++ pad2 d
  ++ "T" ++ pad2 (tod / 3600000)%Z ++ ":" ++ pad2 (tod / 60000 mod 60)%Z
  ++ ":" ++ pad2 (tod / 1000 mod 60)%Z ++ "." ++ pad3 (tod mod 1000)%Z ++ "Z".

(** A recogniser of that format, fields in range. *)
Definition is_digit (c : ascii) : bool :=
  (48 <=? nat_of_ascii c)%nat && (nat_of_ascii c <=? 57)%nat.

Definition digit_value (c : ascii) : nat := nat_of_ascii c - 48.

Definition two_digits_in (lo hi : nat) (a b : ascii) : bool :=
  is_digit a && is_digit b
  && (lo <=? 10 * digit_value a + digit_value b)%nat
  && (10 * digit_value a + digit_value b <=? hi)%nat.

(** [-MM-DDTHH:mm:ss.sssZ] *)
Definition is_ISO8601_tail (l : list ascii) : bool :=
  match l with
  | [c1; m1; m2; c2; d1; d2; t; h1; h2; c3; n1; n2; c4; s1; s2; p; f1; f2; f3; z] =>
      (c1 =? "-")%char && two_digits_in 1 12 m1 m2
      && (c2 =? "-")%char && two_digits_in 1 31 d1 d2
      && (t =? "T")%char && two_digits_in 0 23 h1 h2
      && (c3 =? ":")%char && two_digits_in 0 59 n1 n2
      && (c4 =? ":")%char && two_digits_in 0 59 s1 s2
      && (p =? ".")%char && is_digit f1 && is_digit f2 && is_digit f3
      && (z =? "Z")%char
  | _ => false
  end.

Definition is_ISO8601 (s : string) : bool :=
  match list_ascii_of_string s with
  | y1 :: y2 :: y3 :: y4 :: rest =>
      if is_digit y1 then
        is_digit y2 && is_digit y3 && is_digit y4 && is_ISO8601_tail rest
      else
        match rest with
        | y5 :: y6 :: y7 :: rest' =>
            ((y1 =? "+")%char || (y1 =? "-")%char)
            && is_digit y2 && is_digit y3 && is_digit y4
            && is_digit y5 && is_digit y6 && is_digit y7
            && is_ISO8601_tail rest'
        | _ => false
        end
  | _ => false
  end.

(** ** A capture with other code running during its awaits

    [takePhoto] suspends three times.  What other handlers and callbacks
    do to the session and to the log while it is suspended is a function
    on the pair of both; [takePhoto_interleaved] is [takePhoto] with one
    such function applied at each [await]. *)

Definition Interference : Type := Session * list Effect -> Session * list Effect.

Definition log_call (e : Effect) (w : Session * list Effect) : Session * list Effect :=
  (fst w, (snd w ++ [e])%list).

Definition takePhoto_catch (error : Error) (w : Session * list Effect)
    : Session * list Effect :=
  log_call (AlertAlert "Error" "Failed to capture photo.")
    (log_call (ConsoleError "Failed to take photo:" error) w).

Definition takePhoto_interleaved (cameraRef_current : bool) (ext : External)
    (during_capture during_mkdir during_move : Interference)
    (w : Session * list Effect) : Session * list Effect :=
  if cameraRef_current then
    let w1 := during_capture (log_call CameraTakePhoto w) in
    match camera_takePhoto ext with
    | Rejected error => takePhoto_catch error w1
    | Resolved filePath =>
        let w2 := during_mkdir (log_call (Mkdir (captureFolderPath ext)) w1) in
        match RNFS_mkdir ext (captureFolderPath ext) with
        | Rejected error => takePhoto_catch error w2
        | Resolved _ =>
            let w3 :=
              during_move (log_call (MoveFile filePath (newFilePath ext)) w2) in
            match RNFS_moveFile ext filePath (newFilePath ext) with
            | Rejected error => takePhoto_catch error w3
            | Resolved _ =>
                (setMediaUri (Some ("file://" ++ newFilePath ext)) (fst w3), snd w3)
            end
        end
    end
  else w.

(** The session and the log at the moment the move has resolved. *)
Definition before_setMediaUri (ext : External) (filePath : string)
    (during_capture during_mkdir during_move : Interference)
    (w : Session * list Effect) : Session * list Effect :=
  during_move
    (log_call (MoveFile filePath (newFilePath ext))
       (during_mkdir
          (log_call (Mkdir (captureFolderPath ext))
             (during_capture (log_call CameraTakePhoto w))))).

Definition keeps_not_recording (d : Interference) : Prop :=
  forall w, isRecording (fst w) = false -> isRecording (fst (d w)) = false.

Definition undisturbed : Interference := fun w => w.

(** The finished-recording callback arriving while a handler is suspended. *)
Definition recording_finishes (video_path : string) : Interference :=
  fun w => let '(_, s, l) := onRecordingFinished video_path (fst w) (snd w) in (s, l).

(** ** Notions used by the properties of whole runs *)

(** The [zoom] and [device] props of the cameras a view mounts. *)
Fixpoint camera_zooms (e : Element) : list JS.number :=
  match e with
  | Camera _ _ _ _ z => [z]
  | View cs | TouchableOpacity _ cs => flat_map camera_zooms cs
  | _ => []
  end.

Fixpoint camera_devices (e : Element) : list CameraDevice :=
  match e with
  | Camera d _ _ _ _ => [d]
  | View cs | TouchableOpacity _ cs => flat_map camera_devices cs
  | _ => []
  end.

(** Console messages and alerts, the two ways a failure is reported. *)
Definition is_report (e : Effect) : bool :=
  match e with
  | ConsoleError _ _ | AlertAlert _ _ => true
  | _ => false
  end.

Definition is_stop (e : Effect) : bool :=
  match e with CameraStopRecording => true | _ => false end.

(** Every call that the collaborators may receive resolves. *)
Definition all_resolve (ext : External) : Prop :=
  (exists filePath, camera_takePhoto ext = Resolved filePath)
  /\ camera_startRecording ext = Resolved tt
  /\ camera_stopRecording ext = Resolved tt
  /\ (forall path, RNFS_mkdir ext path = Resolved tt)
  /\ (forall src dst, RNFS_moveFile ext src dst = Resolved tt).

(** A captured-media reference is [null] or a [file://] URI. *)
Definition file_uri_or_null (v : option string) : Prop :=
  v = None \/ exists path, v = Some ("file://" ++ path).

(** The view shows a static message instead of the camera screen. *)
Definition blocked (hasPermission : bool)
    (useCameraDevice : CameraPosition -> option CameraDevice)
    (s : Session) : Prop :=
  hasPermission = false \/ useCameraDevice (cameraType s) = None.

(** ** The permission effect (App.tsx lines 17-21)

    [useEffect(() => { if (!hasPermission) requestPermission(); },
    [hasPermission, requestPermission])].  A render is described by the two
    values that [useCameraPermission] returned in it; the function value is
    represented by a number that identifies it.  The effect runs after the
    first render, and after a later render when one of the two
    dependencies differs from its value in the render before. *)

Record PermissionHook : Type := mkPermissionHook {
  hasPermission_value : bool;
  requestPermission_ref : nat
}.

Inductive PermissionCall : Type :=
| RequestPermission (ref : nat).

Definition permission_effect (h : PermissionHook) : list PermissionCall :=
  if negb (hasPermission_value h) then [RequestPermission (requestPermission_ref h)]
  else [].

Definition deps_changed (prev cur : PermissionHook) : bool :=
  negb (Bool.eqb (hasPermission_value prev) (hasPermission_value cur))
  || negb (Nat.eqb (requestPermission_ref prev) (requestPermission_ref cur)).

Fixpoint rerender_effects (prev : PermissionHook) (renders : list PermissionHook)
    : list PermissionCall :=
  match renders with
  | [] => []
  | cur :: rest =>
      ((if deps_changed prev cur then permission_effect cur else [])
       ++ rerender_effects cur rest)%list
  end.

(** The permission requests made over the first render and the renders
    that follow it. *)
Definition permission_requests (first : PermissionHook) (rest : list PermissionHook)
    : list PermissionCall :=
  (permission_effect first ++ rerender_effects first rest)%list.

Definition denied_renders (renders : list PermissionHook) : nat :=
  List.length (filter (fun h => negb (hasPermission_value h)) renders).

(** * Properties *)

(** ** Strings *)

Lemma string_length_app (a b : string) :
  String.length (a ++ b) = (String.length a + String.length b)%nat.
Proof.
  induction a as [|c a IH]; simpl; [reflexivity | now rewrite IH].
Qed.

Lemma substring_whole (s : string) : substring 0 (String.length s) s = s.
Proof.
  induction s as [|c s IH]; simpl; [reflexivity | now rewrite IH].
Qed.

Lemma substring_skip (a b : string) (j k : nat) :
  substring (String.length a + j) k (a ++ b) = substring j k b.
Proof.
  induction a as [|c a IH]; simpl; [reflexivity | exact IH].
Qed.

Lemma string_app_assoc (a b c : string) : (a ++ b) ++ c = a ++ (b ++ c).
Proof.
  induction a as [|x a IH]; simpl; [reflexivity | now rewrite IH].
Qed.

(** A string that is built by appending [suffix] ends with it. *)
Lemma endsWith_app (a suffix : string) : JS.endsWith (a ++ suffix) suffix = true.
Proof.
  unfold JS.endsWith. rewrite string_length_app.
  replace (String.length a + String.length suffix - String.length suffix)%nat
    with (String.length a + 0)%nat by lia.
  rewrite substring_skip, substring_whole, String.eqb_refl.
  rewrite andb_true_r. apply Nat.leb_le. lia.
Qed.

(** Prefixing a string that is at least as long as the suffix does not
    change whether it ends with the suffix. *)
Lemma endsWith_prefix_long (a s suffix : string) :
  (String.length suffix <= String.length s)%nat ->
  JS.endsWith (a ++ s) suffix = JS.endsWith s suffix.
Proof.
  intros H. unfold JS.endsWith. rewrite string_length_app.
  replace (String.length a + String.length s - String.length suffix)%nat
    with (String.length a + (String.length s - String.length suffix))%nat by lia.
  rewrite substring_skip.
  replace (String.length suffix <=? String.length a + String.length s)%nat with true
    by (symmetry; apply Nat.leb_le; lia).
  replace (String.length suffix <=? String.length s)%nat with true
    by (symmetry; apply Nat.leb_le; lia).
  reflexivity.
Qed.

(** The [file://] scheme never creates or hides a [.jpg] suffix. *)
Lemma endsWith_file_uri (p : string) :
  JS.endsWith ("file://" ++ p) ".jpg" = JS.endsWith p ".jpg".
Proof.
  destruct p as [|c1 [|c2 [|c3 [|c4 p]]]]; try reflexivity.
  apply endsWith_prefix_long. simpl. lia.
Qed.

Lemma file_uri_truthy (p : string) : JS.truthy (Some ("file://" ++ p)) = true.
Proof. reflexivity. Qed.

(** ** Lens facing *)

(** C7. Toggling the lens facing twice restores the original facing, from
    [front] as well as from [back]; the rest of the session is untouched. *)
Theorem toggleCameraType_twice (s : Session) :
  final_state (run (toggleCameraType ;; toggleCameraType) s) = s.
Proof.
  destruct s as [[|] z m r]; reflexivity.
Qed.

(** ** Stopping when nothing is being recorded *)

(** C10. With the recording flag false, [stopRecording] completes without
    changing any of the four state cells and without calling the camera:
    its effect log is empty. *)
Theorem stopRecording_idle_noop (cameraRef_current : bool) (ext : External) (s : Session) :
  isRecording s = false ->
  run (stopRecording cameraRef_current ext) s = (Normal tt, s, []).
Proof.
  intros H. unfold run, stopRecording. rewrite H, andb_false_r. reflexivity.
Qed.

Lemma stopRecording_idle_noop_witness :
  run (stopRecording true ext_ok) initial = (Normal tt, initial, []).
Proof. apply stopRecording_idle_noop. reflexivity. Defined.

(** ** Failures *)

(** C2. If the capture, the directory creation or the move rejects, then
    [takePhoto] ends in its [catch]: the session is exactly what it was
    (so [mediaUri] and [isRecording] are unchanged, and [mediaUri] is still
    [null] if it was), and the alert "Failed to capture photo." was shown. *)
Theorem takePhoto_failure (ext : External) (s : Session) :
  capture_step_fails ext = true ->
  final_state (run (takePhoto true ext) s) = s
  /\ In (AlertAlert "Error" "Failed to capture photo.")
        (effects (run (takePhoto true ext) s))
  /\ completion (run (takePhoto true ext) s) = Normal tt.
Proof.
  unfold capture_step_fails, run, takePhoto, try_catch, bind, await,
    final_state, effects, completion.
  destruct (camera_takePhoto ext) as [filePath|e]; simpl.
  - destruct (RNFS_mkdir ext (captureFolderPath ext)) as [[]|e1]; simpl.
    + destruct (RNFS_moveFile ext filePath (newFilePath ext)) as [[]|e2]; simpl.
      * discriminate.
      * intros _. repeat split. right; right; right; right; left. reflexivity.
    + intros _. repeat split. right; right; right; left. reflexivity.
  - intros _. repeat split. right; right; left. reflexivity.
Qed.

Lemma takePhoto_failure_witness :
  final_state (run (takePhoto true ext_move_fails) initial) = initial
  /\ In (AlertAlert "Error" "Failed to capture photo.")
        (effects (run (takePhoto true ext_move_fails) initial))
  /\ completion (run (takePhoto true ext_move_fails) initial) = Normal tt.
Proof. apply takePhoto_failure. reflexivity. Defined.

(** C6. A recording failure clears the flag, shows an alert and leaves the
    captured-media reference alone, on both paths: when the camera's
    [startRecording] throws inside the handler, and when the camera later
    calls [onRecordingError], whatever the error and the session then. *)
Theorem recording_failure (ext : External) (thrown : Error) (s : Session) :
  camera_startRecording ext = Rejected thrown ->
  (isRecording (final_state (run (startRecording true ext) s)) = false
   /\ mediaUri (final_state (run (startRecording true ext) s)) = mediaUri s
   /\ In (AlertAlert "Error" "Failed to start recording.")
         (effects (run (startRecording true ext) s)))
  /\
  (forall (error : Error) (s1 : Session),
     isRecording (final_state (run (onRecordingError error) s1)) = false
     /\ mediaUri (final_state (run (onRecordingError error) s1)) = mediaUri s1
     /\ In (AlertAlert "Error" "Failed to record video.")
           (effects (run (onRecordingError error) s1))).
Proof.
  intros H. split.
  - unfold run, startRecording, try_catch, bind, await, final_state, effects.
    rewrite H. simpl. repeat split. right; right; left. reflexivity.
  - intros error s1. simpl. repeat split. right; left. reflexivity.
Qed.

Lemma recording_failure_witness :
  (isRecording (final_state (run (startRecording true ext_start_fails) recording)) = false
   /\ mediaUri (final_state (run (startRecording true ext_start_fails) recording))
      = mediaUri recording
   /\ In (AlertAlert "Error" "Failed to start recording.")
         (effects (run (startRecording true ext_start_fails) recording)))
  /\
  (forall (error : Error) (s1 : Session),
     isRecording (final_state (run (onRecordingError error) s1)) = false
     /\ mediaUri (final_state (run (onRecordingError error) s1)) = mediaUri s1
     /\ In (AlertAlert "Error" "Failed to record video.")
           (effects (run (onRecordingError error) s1))).
Proof.
  apply (recording_failure ext_start_fails "camera/unavailable" recording).
  reflexivity.
Defined.

(** ** The view *)

(** C8. Without permission the component renders the static message and
    nothing else, whatever the device lookup and the session are: no
    [Camera] element is mounted and no control is offered. *)
Theorem render_without_permission
    (useCameraDevice : CameraPosition -> option CameraDevice) (s : Session) :
  render false useCameraDevice s = View [Text "Please grant camera permission."]
  /\ mounts_camera (render false useCameraDevice s) = false
  /\ callbacks (render false useCameraDevice s) = [].
Proof. repeat split. Qed.

(** The view of a session without captured media is the live preview. *)
Lemma render_live (useCameraDevice : CameraPosition -> option CameraDevice)
    (device : CameraDevice) (s : Session) :
  useCameraDevice (cameraType s) = Some device ->
  mediaUri s = None ->
  live_preview (render true useCameraDevice s) = true.
Proof.
  intros Hd Hm. unfold render, render_media. simpl.
  rewrite Hd, Hm. simpl. destruct (isRecording s); reflexivity.
Qed.

(** C9. The Back action sets the captured-media reference to [null] for
    every prior session, whether it held a photo, a video or nothing; the
    view that follows shows neither the still image nor the video player,
    and with permission and a device it is the live preview. *)
Theorem clearCapture_returns_to_live_preview
    (useCameraDevice : CameraPosition -> option CameraDevice)
    (device : CameraDevice) (s : Session) :
  useCameraDevice (cameraType s) = Some device ->
  mediaUri (final_state (run clearCapture s)) = None
  /\ live_preview (render true useCameraDevice (final_state (run clearCapture s))) = true
  /\ (forall hasPermission,
        shows_image (render hasPermission useCameraDevice
                       (final_state (run clearCapture s))) = false
        /\ shows_video_controls (render hasPermission useCameraDevice
                       (final_state (run clearCapture s))) = false).
Proof.
  intros Hd. split; [reflexivity|]. split.
  - apply (render_live useCameraDevice device); [exact Hd | reflexivity].
  - intros [|]; [|split; reflexivity].
    unfold render, render_media. simpl. rewrite Hd. simpl.
    destruct (isRecording s); split; reflexivity.
Qed.

Lemma clearCapture_returns_to_live_preview_witness :
  let s := setMediaUri (Some "file:///data/Documents/capture/a.jpg") initial in
  mediaUri (final_state (run clearCapture s)) = None
  /\ live_preview (render true any_device (final_state (run clearCapture s))) = true
  /\ (forall hasPermission,
        shows_image (render hasPermission any_device
                       (final_state (run clearCapture s))) = false
        /\ shows_video_controls (render hasPermission any_device
                       (final_state (run clearCapture s))) = false).
Proof.
  apply (clearCapture_returns_to_live_preview any_device {| device_id := "device-0" |}).
  reflexivity.
Defined.

(** ** Photo capture *)

(** What a successful [takePhoto] does, for every session. *)
Lemma takePhoto_success_run (ext : External) (s : Session) (filePath : string) :
  camera_takePhoto ext = Resolved filePath ->
  capture_step_fails ext = false ->
  run (takePhoto true ext) s =
    (Normal tt,
     setMediaUri (Some ("file://" ++ newFilePath ext)) s,
     [CameraTakePhoto; Mkdir (captureFolderPath ext);
      MoveFile filePath (newFilePath ext)]).
Proof.
  unfold capture_step_fails, run, takePhoto, try_catch, bind, await.
  intros ->. simpl.
  destruct (RNFS_mkdir ext (captureFolderPath ext)) as [[]|e1]; simpl;
    [|discriminate].
  destruct (RNFS_moveFile ext filePath (newFilePath ext)) as [[]|e2]; simpl;
    [|discriminate].
  reflexivity.
Qed.

(** C4, as stated, fails: [takePhoto] never writes the recording flag, and
    the Capture Photo control stays on screen during a recording.  A tap
    on Record Video followed by a tap on Capture Photo, both succeeding,
    ends with a [.jpg] reference and the recording flag still true. *)
Lemma takePhoto_while_recording_keeps_flag :
  capture_step_fails ext_ok = false
  /\ steps true any_device (initial, [])
       [Tap cb_startRecording ext_ok; Tap cb_takePhoto ext_ok]
     = Some ({| cameraType := back; zoom := JS.zero;
                mediaUri := Some "file:///data/Documents/capture/2024-05-01T10:20:30.000Z.jpg";
                isRecording := true |},
             [CameraStartRecording; CameraTakePhoto;
              Mkdir "/data/Documents/capture";
              MoveFile "/tmp/photo-1.jpg"
                "/data/Documents/capture/2024-05-01T10:20:30.000Z.jpg"])
  /\ isRecording (final_state (run (takePhoto true ext_ok) recording)) <> false.
Proof. repeat split. discriminate. Qed.

(** ** The capture file name *)

Lemma digit_char_code (d : Z) :
  nat_of_ascii (digit_char d) = (48 + Z.to_nat (d mod 10)%Z)%nat.
Proof.
  unfold digit_char. apply nat_ascii_embedding.
  pose proof (Z.mod_pos_bound d 10 ltac:(lia)). lia.
Qed.

Lemma is_digit_digit_char (d : Z) : is_digit (digit_char d) = true.
Proof.
  unfold is_digit. rewrite digit_char_code.
  pose proof (Z.mod_pos_bound d 10 ltac:(lia)).
  apply andb_true_intro. split; apply Nat.leb_le; lia.
Qed.

Lemma digit_value_digit_char (d : Z) :
  digit_value (digit_char d) = Z.to_nat (d mod 10)%Z.
Proof. unfold digit_value. rewrite digit_char_code. lia. Qed.

(** The two characters of [pad2 n] read back as [n]. *)
Lemma two_digits_pad2 (lo hi : nat) (n : Z) :
  (Z.of_nat lo <= n <= Z.of_nat hi)%Z -> (n < 100)%Z ->
  two_digits_in lo hi (digit_char (n / 10)%Z) (digit_char n) = true.
Proof.
  intros Hn H100. unfold two_digits_in.
  rewrite !is_digit_digit_char, !digit_value_digit_char.
  assert (Hv : (10 * Z.to_nat ((n / 10) mod 10)%Z + Z.to_nat (n mod 10)%Z)%nat = Z.to_nat n).
  { assert (H0 : (0 <= n)%Z) by lia.
    pose proof (Z.mod_pos_bound n 10 ltac:(lia)).
    pose proof (Z.div_pos n 10 H0 ltac:(lia)).
    assert (Hq : (n / 10 < 10)%Z) by (apply Z.div_lt_upper_bound; lia).
    rewrite (Z.mod_small (n / 10) 10) by lia.
    pose proof (Z.div_mod n 10 ltac:(lia)). lia. }
  rewrite Hv. simpl andb.
  apply andb_true_intro. split; apply Nat.leb_le; lia.
Qed.

(** The month and the day of [civil_from_days] are a calendar date. *)
Lemma civil_from_days_range (days y m d : Z) :
  civil_from_days days = (y, m, d) ->
  (1 <= m <= 12 /\ 1 <= d <= 31)%Z.
Proof.
  unfold civil_from_days.
  set (z := (days + 719468)%Z).
  set (era := (z / 146097)%Z).
  set (doe := (z - era * 146097)%Z).
  assert (Hdoe : (0 <= doe < 146097)%Z).
  { unfold doe, era. pose proof (Z.div_mod z 146097 ltac:(lia)).
    pose proof (Z.mod_pos_bound z 146097 ltac:(lia)). lia. }
  clearbody doe. clearbody era. clear z.
  set (yoe := ((doe - doe / 1460 + doe / 36524 - doe / 146096) / 365)%Z).
  set (doy := (doe - (365 * yoe + yoe / 4 - yoe / 100))%Z).
  assert (Hdoy : (0 <= doy <= 365)%Z).
  { unfold doy, yoe. Z.div_mod_to_equations. lia. }
  clearbody doy.
  set (mp := ((5 * doy + 2) / 153)%Z).
  assert (Hmp : (0 <= mp <= 11)%Z).
  { unfold mp. Z.div_mod_to_equations. lia. }
  assert (Hd : (1 <= doy - (153 * mp + 2) / 5 + 1 <= 31)%Z).
  { unfold mp. Z.div_mod_to_equations. lia. }
  intros H. injection H as _ <- <-. split; [|exact Hd].
  destruct (mp <? 10)%Z eqn:E; [apply Z.ltb_lt in E | apply Z.ltb_ge in E]; lia.
Qed.

Lemma is_ISO8601_tail_fields (m d h n s f : Z) :
  (1 <= m <= 12)%Z -> (1 <= d <= 31)%Z -> (0 <= h <= 23)%Z ->
  (0 <= n <= 59)%Z -> (0 <= s <= 59)%Z ->
  is_ISO8601_tail
    (list_ascii_of_string
       ("-" ++ pad2 m ++ "-" ++ pad2 d ++ "T" ++ pad2 h ++ ":" ++ pad2 n
        ++ ":" ++ pad2 s ++ "." ++ pad3 f ++ "Z")) = true.
Proof.
  intros Hm Hd Hh Hn Hs.
  cbn [append pad2 pad3 list_ascii_of_string is_ISO8601_tail].
  rewrite (two_digits_pad2 1 12 m), (two_digits_pad2 1 31 d),
    (two_digits_pad2 0 23 h), (two_digits_pad2 0 59 n), (two_digits_pad2 0 59 s)
    by lia.
  rewrite !is_digit_digit_char. reflexivity.
Qed.

(** Every time value is printed in the ISO-8601 format. *)
Lemma toISOString_is_ISO8601 (tv : Z) : is_ISO8601 (toISOString tv) = true.
Proof.
  unfold toISOString.
  destruct (civil_from_days (tv / msPerDay)) as [[y m] d] eqn:Hc.
  apply civil_from_days_range in Hc. destruct Hc as [Hm Hd].
  set (tod := (tv mod msPerDay)%Z).
  assert (Htod : (0 <= tod < 86400000)%Z)
    by (apply Z.mod_pos_bound; reflexivity).
  assert (Hh : (0 <= tod / 3600000 <= 23)%Z).
  { split; [apply Z.div_pos; lia|].
    assert ((tod / 3600000 < 24)%Z) by (apply Z.div_lt_upper_bound; lia). lia. }
  assert (Hn : (0 <= tod / 60000 mod 60 <= 59)%Z).
  { pose proof (Z.mod_pos_bound (tod / 60000) 60 ltac:(lia)). lia. }
  assert (Hs : (0 <= tod / 1000 mod 60 <= 59)%Z).
  { pose proof (Z.mod_pos_bound (tod / 1000) 60 ltac:(lia)). lia. }
  pose proof (is_ISO8601_tail_fields m d (tod / 3600000) (tod / 60000 mod 60)
                (tod / 1000 mod 60) (tod mod 1000) Hm Hd Hh Hn Hs) as Htail.
  set (tail := "-" ++ pad2 m ++ "-" ++ pad2 d ++ "T" ++ pad2 (tod / 3600000)
               ++ ":" ++ pad2 (tod / 60000 mod 60) ++ ":" ++ pad2 (tod / 1000 mod 60)
               ++ "." ++ pad3 (tod mod 1000) ++ "Z") in *.
  unfold is_ISO8601, year_string.
  destruct ((0 <=? y)%Z && (y <=? 9999)%Z).
  - cbn [append pad2 pad3 pad4 list_ascii_of_string].
    rewrite !is_digit_digit_char. exact Htail.
  - cbn [append pad2 pad3 pad4 pad6 list_ascii_of_string].
    rewrite !is_digit_digit_char, Htail.
    destruct (y <? 0)%Z; reflexivity.
Qed.

(** Undisturbed, the interleaved capture is the handler run in one step. *)
Lemma takePhoto_interleaved_undisturbed (cam : bool) (ext : External)
    (s : Session) (l : list Effect) :
  takePhoto_interleaved cam ext undisturbed undisturbed undisturbed (s, l)
  = (final_state (takePhoto cam ext s l), effects (takePhoto cam ext s l)).
Proof.
  unfold takePhoto_interleaved, takePhoto, undisturbed, takePhoto_catch, log_call,
    try_catch, bind, await, perform, update, ret, final_state, effects.
  destruct cam; [|reflexivity]. cbn [fst snd].
  destruct (camera_takePhoto ext) as [fp|]; [|reflexivity].
  destruct (RNFS_mkdir ext (captureFolderPath ext)) as [[]|]; [|reflexivity].
  destruct (RNFS_moveFile ext fp (newFilePath ext)) as [[]|]; reflexivity.
Qed.

(** A capture that began during a recording and succeeded after the
    recording had finished ends with the flag false: the flag is not the
    capture's to keep. *)
Example capture_across_end_of_recording :
  takePhoto_interleaved true ext_ok (recording_finishes "/tmp/clip.mov")
    undisturbed undisturbed (recording, [])
  = ({| cameraType := back; zoom := JS.zero;
        mediaUri := Some "file:///data/Documents/capture/2024-05-01T10:20:30.000Z.jpg";
        isRecording := false |},
     [CameraTakePhoto; Mkdir "/data/Documents/capture";
      MoveFile "/tmp/photo-1.jpg"
        "/data/Documents/capture/2024-05-01T10:20:30.000Z.jpg"]).
Proof. reflexivity. Qed.

(** C4, amended. If no step of [takePhoto] rejects, then when the handler
    completes the captured-media reference is [file://] followed by
    [<DocumentDirectoryPath>/capture/<ISO-8601 timestamp>.jpg], which ends
    with [.jpg] and is truthy, whatever ran while the handler was
    suspended.  The handler writes no other cell: the recording flag, the
    lens facing and the zoom are those found when the move resolved.  So
    the flag is false afterwards if it was false when the capture began
    and nothing that ran during the capture raised it; it is not cleared
    by the capture. *)
Theorem takePhoto_success_interleaved (ext : External) (tv : Z)
    (during_capture during_mkdir during_move : Interference)
    (s : Session) (l : list Effect) :
  capture_step_fails ext = false ->
  Date_toISOString ext = toISOString tv ->
  exists filePath,
    camera_takePhoto ext = Resolved filePath
    /\ let w3 := before_setMediaUri ext filePath during_capture during_mkdir
                   during_move (s, l) in
       let s' := fst (takePhoto_interleaved true ext during_capture during_mkdir
                        during_move (s, l)) in
       mediaUri s' = Some ("file://" ++ DocumentDirectoryPath ext ++ "/capture" ++ "/"
                             ++ toISOString tv ++ ".jpg")
       /\ is_ISO8601 (toISOString tv) = true
       /\ (forall uri, mediaUri s' = Some uri -> JS.endsWith uri ".jpg" = true)
       /\ JS.truthy (mediaUri s') = true
       /\ isRecording s' = isRecording (fst w3)
       /\ cameraType s' = cameraType (fst w3)
       /\ zoom s' = zoom (fst w3)
       /\ (isRecording s = false ->
           keeps_not_recording during_capture ->
           keeps_not_recording during_mkdir ->
           keeps_not_recording during_move ->
           isRecording s' = false).
Proof.
  intros Hok Hts.
  unfold capture_step_fails in Hok.
  destruct (camera_takePhoto ext) as [fp|] eqn:Hfp; [|discriminate].
  exists fp. split; [reflexivity|].
  destruct (RNFS_mkdir ext (captureFolderPath ext)) as [[]|] eqn:Hmk; [|discriminate].
  destruct (RNFS_moveFile ext fp (newFilePath ext)) as [[]|] eqn:Hmv; [|discriminate].
  intros w3 s'.
  assert (Hs' : s' = setMediaUri (Some ("file://" ++ newFilePath ext)) (fst w3)).
  { unfold s', takePhoto_interleaved. rewrite Hfp, Hmk, Hmv. reflexivity. }
  assert (Hpath : newFilePath ext =
                  DocumentDirectoryPath ext ++ "/capture" ++ "/"
                    ++ toISOString tv ++ ".jpg").
  { unfold newFilePath, captureFolderPath. rewrite Hts. apply string_app_assoc. }
  rewrite Hs'. unfold setMediaUri, mediaUri, isRecording, cameraType, zoom.
  split; [now rewrite Hpath|].
  split; [apply toISOString_is_ISO8601|].
  split.
  { intros uri Huri.
    assert (uri = "file://" ++ newFilePath ext) as -> by congruence.
    rewrite endsWith_file_uri. unfold newFilePath.
    rewrite <- !string_app_assoc. apply endsWith_app. }
  split; [reflexivity|]. split; [reflexivity|]. split; [reflexivity|].
  split; [reflexivity|].
  intros H0 H1 H2 H3. fold (isRecording (fst w3)).
  unfold w3, before_setMediaUri. apply H3. apply H2. apply H1. exact H0.
Qed.

Lemma takePhoto_success_interleaved_witness :
  exists filePath,
    camera_takePhoto ext_ok = Resolved filePath
    /\ let w3 := before_setMediaUri ext_ok filePath
                   (recording_finishes "/tmp/clip.mov") undisturbed undisturbed
                   (recording, []) in
       let s' := fst (takePhoto_interleaved true ext_ok
                        (recording_finishes "/tmp/clip.mov") undisturbed undisturbed
                        (recording, [])) in
       mediaUri s' = Some ("file://" ++ DocumentDirectoryPath ext_ok ++ "/capture" ++ "/"
                             ++ toISOString 1714558830000 ++ ".jpg")
       /\ is_ISO8601 (toISOString 1714558830000) = true
       /\ (forall uri, mediaUri s' = Some uri -> JS.endsWith uri ".jpg" = true)
       /\ JS.truthy (mediaUri s') = true
       /\ isRecording s' = isRecording (fst w3)
       /\ cameraType s' = cameraType (fst w3)
       /\ zoom s' = zoom (fst w3)
       /\ (isRecording recording = false ->
           keeps_not_recording (recording_finishes "/tmp/clip.mov") ->
           keeps_not_recording undisturbed ->
           keeps_not_recording undisturbed ->
           isRecording s' = false).
Proof.
  apply (takePhoto_success_interleaved ext_ok 1714558830000
           (recording_finishes "/tmp/clip.mov") undisturbed undisturbed
           recording []);
    reflexivity.
Defined.

(** ** Recording *)

(** The review view: what is rendered once a captured asset is referenced. *)
Lemma render_review (useCameraDevice : CameraPosition -> option CameraDevice)
    (device : CameraDevice) (s : Session) (uri : string) :
  useCameraDevice (cameraType s) = Some device ->
  mediaUri s = Some uri ->
  JS.truthy (Some uri) = true ->
  render true useCameraDevice s =
    View [ (if JS.endsWith uri ".jpg" then Image uri else Video uri true);
           TouchableOpacity cb_clearCapture [Text "Back"] ].
Proof.
  intros Hd Hm Ht. unfold render, render_media.
  rewrite Hd, Hm, Ht. reflexivity.
Qed.

(** C5, as stated, fails: the component does not inspect the path that the
    camera reports.  When a recording started and stopped from the initial
    screen finishes with a path that ends with [.jpg], the reference ends
    with [.jpg] and the review view is the still image, without a player. *)
Lemma recording_finished_with_jpg_path :
  exists s' l,
    steps true any_device (initial, [])
      [Tap cb_startRecording ext_ok; Tap cb_stopRecording ext_ok;
       (RecordingFinished "/tmp/clip.jpg")] = Some (s', l)
    /\ mediaUri s' = Some "file:///tmp/clip.jpg"
    /\ JS.endsWith "file:///tmp/clip.jpg" ".jpg" = true
    /\ isRecording s' = false
    /\ shows_image (render true any_device s') = true
    /\ shows_video_controls (render true any_device s') = false.
Proof. do 2 eexists. repeat split. Qed.

(** C5, amended. When [onRecordingFinished] fires with a path that does
    not end with [.jpg], the captured-media reference is [file://] followed
    by that path, it does not end with [.jpg], the recording flag is false,
    and, with permission and a device, the view is the video player with
    its controls enabled, not the still image and not the camera. *)
Theorem recording_finished
    (useCameraDevice : CameraPosition -> option CameraDevice)
    (device : CameraDevice) (video_path : string) (s : Session) :
  JS.endsWith video_path ".jpg" = false ->
  useCameraDevice (cameraType s) = Some device ->
  let s' := final_state (run (onRecordingFinished video_path) s) in
  mediaUri s' = Some ("file://" ++ video_path)
  /\ (forall uri, mediaUri s' = Some uri -> JS.endsWith uri ".jpg" = false)
  /\ isRecording s' = false
  /\ render true useCameraDevice s' =
       View [ Video ("file://" ++ video_path) true;
              TouchableOpacity cb_clearCapture [Text "Back"] ]
  /\ shows_video_controls (render true useCameraDevice s') = true
  /\ shows_image (render true useCameraDevice s') = false
  /\ mounts_camera (render true useCameraDevice s') = false.
Proof.
  intros Hjpg Hd s'.
  assert (Hm : mediaUri s' = Some ("file://" ++ video_path)) by reflexivity.
  assert (Hr : render true useCameraDevice s' =
               View [ Video ("file://" ++ video_path) true;
                      TouchableOpacity cb_clearCapture [Text "Back"] ]).
  { rewrite (render_review useCameraDevice device s' _ Hd Hm (file_uri_truthy _)).
    now rewrite endsWith_file_uri, Hjpg. }
  split; [exact Hm|]. split.
  { intros uri Huri. rewrite Hm in Huri.
    assert (uri = "file://" ++ video_path) as -> by congruence.
    now rewrite endsWith_file_uri. }
  split; [reflexivity|]. split; [exact Hr|].
  rewrite Hr. repeat split.
Qed.

Lemma recording_finished_witness :
  let s' := final_state (run (onRecordingFinished "/tmp/clip.mov") recording) in
  mediaUri s' = Some ("file://" ++ "/tmp/clip.mov")
  /\ (forall uri, mediaUri s' = Some uri -> JS.endsWith uri ".jpg" = false)
  /\ isRecording s' = false
  /\ render true any_device s' =
       View [ Video ("file://" ++ "/tmp/clip.mov") true;
              TouchableOpacity cb_clearCapture [Text "Back"] ]
  /\ shows_video_controls (render true any_device s') = true
  /\ shows_image (render true any_device s') = false
  /\ mounts_camera (render true any_device s') = false.
Proof.
  apply (recording_finished any_device {| device_id := "device-0" |});
    reflexivity.
Defined.

(** What [startRecording] does with a mounted camera when the camera
    accepts the call: the flag is set and the call is made once, whatever
    the flag was before. *)
Lemma startRecording_accepted_run (ext : External) (s : Session) :
  camera_startRecording ext = Resolved tt ->
  run (startRecording true ext) s =
    (Normal tt, setIsRecording true s, [CameraStartRecording]).
Proof.
  intros H. unfold run, startRecording, try_catch, bind, await.
  simpl. rewrite H. reflexivity.
Qed.

(** The handler alone: it tests [cameraRef.current] only, not the flag.
    Were it run on the session of a recording in progress it would call the
    camera again.  The component never runs it there: the closure is bound
    to the capture button in the branch of the view where the flag is
    false, as the lemmas that follow show. *)
Lemma startRecording_while_recording_calls_camera :
  isRecording recording = true
  /\ cameraRef_of true any_device recording = true
  /\ effects (run (startRecording true ext_ok) recording) = [CameraStartRecording]
  /\ final_state (run (startRecording true ext_start_fails) recording) <> recording.
Proof. repeat split. discriminate. Qed.

(** No handler other than [startRecording] calls the camera's
    [startRecording]. *)
Lemma other_handlers_do_not_start (cb : Callback) (cam : bool) (ext : External)
    (s : Session) :
  cb <> cb_startRecording ->
  ~ In CameraStartRecording (effects (run (press cb cam ext) s)).
Proof.
  intros Hcb.
  destruct cb; try congruence; unfold run, press; simpl; try tauto.
  - unfold stopRecording, try_catch, await, effects.
    destruct (cam && isRecording s); simpl; [|tauto].
    destruct (camera_stopRecording ext); simpl; intuition discriminate.
  - unfold takePhoto, try_catch, bind, await, effects.
    destruct cam; simpl; [|tauto].
    destruct (camera_takePhoto ext) as [fp|]; simpl; [|intuition discriminate].
    destruct (RNFS_mkdir ext (captureFolderPath ext)) as [[]|]; simpl;
      [|intuition discriminate].
    destruct (RNFS_moveFile ext fp (newFilePath ext)) as [[]|]; simpl;
      intuition discriminate.
Qed.

(** Handlers only append to the log they are given. *)
Lemma press_appends (cb : Callback) (cam : bool) (ext : External)
    (s : Session) (l : list Effect) :
  press cb cam ext s l =
    (completion (run (press cb cam ext) s),
     final_state (run (press cb cam ext) s),
     (l ++ effects (run (press cb cam ext) s))%list).
Proof.
  unfold run, completion, final_state, effects.
  destruct cb; unfold press; simpl; rewrite ?app_nil_r; try reflexivity.
  - unfold startRecording, try_catch, bind, await, perform, update.
    destruct cam; simpl; rewrite ?app_nil_r; [|reflexivity].
    destruct (camera_startRecording ext); simpl;
      rewrite <- ?app_assoc; reflexivity.
  - unfold stopRecording, try_catch, bind, await, perform, ret.
    destruct (cam && isRecording s); simpl; rewrite ?app_nil_r; [|reflexivity].
    destruct (camera_stopRecording ext); simpl;
      rewrite <- ?app_assoc; reflexivity.
  - unfold takePhoto, try_catch, bind, await, perform, update, ret.
    destruct cam; simpl; rewrite ?app_nil_r; [|reflexivity].
    destruct (camera_takePhoto ext) as [fp|]; simpl;
      [|rewrite <- ?app_assoc; reflexivity].
    destruct (RNFS_mkdir ext (captureFolderPath ext)) as [[]|]; simpl;
      [|rewrite <- ?app_assoc; reflexivity].
    destruct (RNFS_moveFile ext fp (newFilePath ext)) as [[]|]; simpl;
      rewrite <- ?app_assoc; reflexivity.
Qed.

Lemma start_calls_app (l1 l2 : list Effect) :
  start_calls (l1 ++ l2) = (start_calls l1 + start_calls l2)%nat.
Proof. unfold start_calls. now rewrite filter_app, length_app. Qed.

Lemma start_calls_absent (l : list Effect) :
  ~ In CameraStartRecording l -> start_calls l = 0%nat.
Proof.
  unfold start_calls. induction l as [|e l IH]; [reflexivity|].
  intros H. simpl in *. destruct e; simpl; try (apply IH; tauto).
  exfalso. apply H. now left.
Qed.

(** The controls of each view. *)
Lemma callbacks_render (hasPermission : bool)
    (useCameraDevice : CameraPosition -> option CameraDevice) (s : Session) :
  callbacks (render hasPermission useCameraDevice s) =
    if hasPermission then
      match useCameraDevice (cameraType s) with
      | None => []
      | Some _ =>
          if JS.truthy (mediaUri s) then [cb_clearCapture]
          else [cb_toggleCameraType; cb_zoomIn; cb_zoomOut;
                (if isRecording s then cb_stopRecording else cb_startRecording);
                cb_takePhoto]
      end
    else [].
Proof.
  unfold render. destruct hasPermission; [|reflexivity]. simpl.
  destruct (useCameraDevice (cameraType s)) as [d|]; [|reflexivity].
  assert (Hm : callbacks (render_media d s) = []).
  { unfold render_media. destruct (mediaUri s) as [uri|]; [|reflexivity].
    destruct (JS.truthy (Some uri)); [|reflexivity].
    destruct (JS.endsWith uri ".jpg"); reflexivity. }
  simpl. rewrite Hm.
  destruct (JS.truthy (mediaUri s)); simpl; [reflexivity|].
  destruct (isRecording s); reflexivity.
Qed.

(** While the flag is true the view offers no control bound to
    [startRecording]. *)
Lemma startRecording_not_offered (hasPermission : bool)
    (useCameraDevice : CameraPosition -> option CameraDevice) (s : Session) :
  isRecording s = true ->
  offered hasPermission useCameraDevice cb_startRecording s = false.
Proof.
  intros H. unfold offered. rewrite callbacks_render, H.
  destruct hasPermission; [|reflexivity].
  destruct (useCameraDevice (cameraType s)); [|reflexivity].
  destruct (JS.truthy (mediaUri s)); reflexivity.
Qed.

(** The same through the screen: whenever the Back control is on screen,
    tapping it leads to the live preview. *)
Lemma back_tap_returns_to_live_preview (hasPermission : bool)
    (useCameraDevice : CameraPosition -> option CameraDevice)
    (ext : External) (s s' : Session) (l l' : list Effect) :
  step hasPermission useCameraDevice (s, l) (Tap cb_clearCapture ext) = Some (s', l') ->
  mediaUri s' = None
  /\ l' = l
  /\ live_preview (render hasPermission useCameraDevice s') = true.
Proof.
  unfold step, offered. rewrite callbacks_render.
  destruct hasPermission; [|discriminate].
  destruct (useCameraDevice (cameraType s)) as [d|] eqn:Hd; [|discriminate].
  destruct (JS.truthy (mediaUri s)); [|destruct (isRecording s); discriminate].
  simpl. intros [= <- <-]. repeat split.
  apply (render_live useCameraDevice d); [exact Hd | reflexivity].
Qed.

(** While the flag is true a tap on Record Video is refused: it changes
    neither the session nor the log. *)
Lemma record_tap_refused_while_recording (hasPermission : bool)
    (useCameraDevice : CameraPosition -> option CameraDevice)
    (ext : External) (s : Session) (l : list Effect) :
  isRecording s = true ->
  step hasPermission useCameraDevice (s, l) (Tap cb_startRecording ext) = None.
Proof.
  intros H. unfold step.
  now rewrite (startRecording_not_offered hasPermission useCameraDevice s H).
Qed.

(** C1. While the recording flag is true, [startRecording] cannot be
    called: no control of the rendered view is bound to it (the capture
    button is bound to [stopRecording] instead), so no tap that the screen
    can receive in that state, and neither recording callback, calls the
    camera's [startRecording] a second time: the number of such calls in
    the log stays the same. *)
Theorem no_second_start_from_the_view (hasPermission : bool)
    (useCameraDevice : CameraPosition -> option CameraDevice)
    (s s' : Session) (l l' : list Effect) (i : Input) :
  isRecording s = true ->
  step hasPermission useCameraDevice (s, l) i = Some (s', l') ->
  offered hasPermission useCameraDevice cb_startRecording s = false
  /\ start_calls l' = start_calls l.
Proof.
  intros Hrec Hstep.
  pose proof (startRecording_not_offered hasPermission useCameraDevice s Hrec) as Hoff.
  split; [exact Hoff|].
  destruct i as [cb ext|p|e]; simpl in Hstep.
  - destruct (offered hasPermission useCameraDevice cb s) eqn:Hcb; [|discriminate].
    rewrite press_appends in Hstep. injection Hstep as _ <-.
    rewrite start_calls_app.
    rewrite (start_calls_absent (effects (run (press cb _ ext) s))); [lia|].
    apply other_handlers_do_not_start. intros ->. congruence.
  - injection Hstep as _ <-. reflexivity.
  - injection Hstep as _ <-. rewrite !start_calls_app.
    unfold start_calls. simpl. lia.
Qed.

Lemma no_second_start_from_the_view_witness :
  offered true any_device cb_startRecording recording = false
  /\ start_calls [CameraStartRecording; CameraStopRecording]
     = start_calls [CameraStartRecording].
Proof.
  apply (no_second_start_from_the_view true any_device recording recording
           [CameraStartRecording] [CameraStartRecording; CameraStopRecording]
           (Tap cb_stopRecording ext_ok));
    reflexivity.
Defined.

(** ** Zoom

    [zoomIn] and [zoomOut] compute in binary64.  The lemmas below follow
    the rounding of [SFadd] and [SFsub] step by step: alignment of the
    mantissas, the right shift to the canonical exponent, rounding to
    nearest even, and the renormalising shift after a carry. *)

Section Zoom.

Local Open Scope Z_scope.

Lemma fexp64 (x : Z) : fexp JS.prec JS.emax x = Z.max (x - 53) (-1074).
Proof. reflexivity. Qed.

Lemma digits2_pos_bounds (p : positive) :
  2 ^ (Zpos (digits2_pos p) - 1) <= Zpos p < 2 ^ Zpos (digits2_pos p).
Proof.
  induction p as [p IH|p IH|]; simpl digits2_pos.
  - rewrite Pos2Z.inj_succ, (Pos2Z.inj_xI p).
    replace (Z.succ (Zpos (digits2_pos p)) - 1) with (Z.succ (Zpos (digits2_pos p) - 1)) by lia.
    rewrite !Z.pow_succ_r by lia. lia.
  - rewrite Pos2Z.inj_succ, (Pos2Z.inj_xO p).
    replace (Z.succ (Zpos (digits2_pos p)) - 1) with (Z.succ (Zpos (digits2_pos p) - 1)) by lia.
    rewrite !Z.pow_succ_r by lia. lia.
  - simpl. lia.
Qed.

Lemma Zdigits2_nonneg (m : Z) : 0 <= Zdigits2 m.
Proof. destruct m; simpl; lia. Qed.

Lemma Zdigits2_gt (m : Z) : 0 <= m -> m < 2 ^ Zdigits2 m.
Proof.
  destruct m as [|p|p]; simpl; intros H; [lia| |lia].
  apply digits2_pos_bounds.
Qed.

Lemma Zdigits2_le (m n : Z) : 0 <= m -> 0 <= n -> m < 2 ^ n -> Zdigits2 m <= n.
Proof.
  destruct m as [|p|p]; simpl; intros H Hn Hlt; [lia| |lia].
  pose proof (digits2_pos_bounds p) as [Hlo _].
  assert (Hpow : 2 ^ (Zpos (digits2_pos p) - 1) < 2 ^ n) by lia.
  apply Z.pow_lt_mono_r_iff in Hpow; lia.
Qed.

Lemma shr_1_m (mrs : shr_record) :
  0 <= shr_m mrs -> shr_m (shr_1 mrs) = shr_m mrs / 2.
Proof.
  rewrite <- Z.div2_div.
  destruct mrs as [m r s]. destruct m as [|[p|p|]|p]; simpl; intros H; try reflexivity; lia.
Qed.

Lemma iter_shr_m (p : positive) (mrs : shr_record) :
  0 <= shr_m mrs ->
  shr_m (iter_pos shr_1 p mrs) = shr_m mrs / 2 ^ Zpos p.
Proof.
  revert mrs. induction p as [p IH|p IH|]; intros mrs H; simpl iter_pos.
  - assert (H1 : 0 <= shr_m (shr_1 mrs)) by (rewrite shr_1_m by exact H; apply Z.div_pos; lia).
    assert (H2 : 0 <= shr_m (iter_pos shr_1 p (shr_1 mrs)))
      by (rewrite IH by exact H1; apply Z.div_pos; [exact H1|apply Z.pow_pos_nonneg; lia]).
    rewrite IH by exact H2. rewrite IH by exact H1. rewrite shr_1_m by exact H.
    rewrite !Z.div_div by (try apply Z.pow_pos_nonneg; lia).
    f_equal. rewrite (Pos2Z.inj_xI p), Z.pow_add_r, Z.pow_mul_r by lia.
    change (2 ^ 2) with 4. rewrite Z.pow_1_r.
    replace (4 ^ Zpos p) with (2 ^ Zpos p * 2 ^ Zpos p).
    + lia.
    + rewrite <- Z.pow_mul_l. reflexivity.
  - assert (H2 : 0 <= shr_m (iter_pos shr_1 p mrs))
      by (rewrite IH by exact H; apply Z.div_pos; [exact H|apply Z.pow_pos_nonneg; lia]).
    rewrite IH by exact H2. rewrite IH by exact H.
    rewrite !Z.div_div by (try apply Z.pow_pos_nonneg; lia).
    f_equal. rewrite (Pos2Z.inj_xO p), Z.pow_mul_r by lia.
    change (2 ^ 2) with 4. rewrite <- Z.pow_mul_l. reflexivity.
  - rewrite shr_1_m by exact H. reflexivity.
Qed.

Lemma iter_xO_value (m d : positive) :
  Zpos (Pos.iter xO m d) = Zpos m * 2 ^ Zpos d.
Proof.
  induction d as [|d IH] using Pos.peano_ind.
  - simpl. lia.
  - rewrite Pos.iter_succ, (Pos2Z.inj_xO (Pos.iter xO m d)), IH.
    rewrite Pos2Z.inj_succ, Z.pow_succ_r by lia. lia.
Qed.

Lemma iter_xO_digits (m d : positive) :
  Zpos (digits2_pos (Pos.iter xO m d)) = Zpos (digits2_pos m) + Zpos d.
Proof.
  induction d as [|d IH] using Pos.peano_ind.
  - simpl. lia.
  - rewrite Pos.iter_succ. simpl digits2_pos. rewrite Pos2Z.inj_succ, IH. lia.
Qed.

(** Aligning a mantissa to a lower exponent keeps the value and the
    position of the leading digit. *)
Lemma shl_align_spec (m : positive) (e e' : Z) :
  let '(mz, ez) := shl_align m e e' in
  ez = Z.min e e'
  /\ Zpos mz = Zpos m * 2 ^ (e - ez)
  /\ Zpos (digits2_pos mz) + ez = Zpos (digits2_pos m) + e.
Proof.
  unfold shl_align. destruct (e' - e) as [|d|d] eqn:Hd.
  - repeat split; try lia. rewrite Z.sub_diag. simpl. lia.
  - repeat split; try lia. rewrite Z.sub_diag. simpl. lia.
  - replace (e - e') with (Zpos d) by lia.
    rewrite iter_xO_value, iter_xO_digits. repeat split; lia.
Qed.

Lemma round_nearest_even_bounds (m : Z) (l : location) :
  m <= round_nearest_even m l <= m + 1.
Proof.
  destruct l as [|[| |]]; simpl; try lia.
  destruct (Z.even m); lia.
Qed.

(** The shift that brings a mantissa to its canonical exponent. *)
Lemma shr_fexp_spec (m e : Z) (l : location) :
  0 <= m ->
  let '(mrs, e') := shr_fexp JS.prec JS.emax m e l in
  e' = Z.max e (fexp JS.prec JS.emax (Zdigits2 m + e))
  /\ shr_m mrs = m / 2 ^ (e' - e).
Proof.
  intros Hm. unfold shr_fexp, shr.
  assert (Hrec : shr_m (shr_record_of_loc m l) = m) by (destruct l as [|[| |]]; reflexivity).
  destruct (fexp JS.prec JS.emax (Zdigits2 m + e) - e) as [|p|p] eqn:Hk.
  - split; [lia|]. rewrite Z.sub_diag, Hrec. simpl. now rewrite Z.div_1_r.
  - split; [lia|]. rewrite iter_shr_m by (rewrite Hrec; exact Hm).
    rewrite Hrec. f_equal. f_equal. lia.
  - split; [lia|]. rewrite Z.sub_diag, Hrec. simpl. now rewrite Z.div_1_r.
Qed.

(** After the shift the mantissa fits in 53 bits. *)
Lemma shr_fexp_fits (m e : Z) (l : location) :
  0 <= m ->
  0 <= shr_m (fst (shr_fexp JS.prec JS.emax m e l)) < 2 ^ 53.
Proof.
  intros Hm. pose proof (shr_fexp_spec m e l Hm) as H.
  destruct (shr_fexp JS.prec JS.emax m e l) as [mrs e']. destruct H as [He' Hmrs].
  simpl fst. rewrite Hmrs. rewrite fexp64 in He'.
  assert (Hk : 0 <= e' - e) by lia.
  assert (Hpow : 0 < 2 ^ (e' - e)) by (apply Z.pow_pos_nonneg; lia).
  split; [apply Z.div_pos; lia|].
  apply Z.div_lt_upper_bound; [exact Hpow|].
  rewrite <- Z.pow_add_r by lia.
  pose proof (Zdigits2_gt m Hm) as Hlt. pose proof (Zdigits2_nonneg m) as Hd.
  eapply Z.lt_le_trans; [exact Hlt|].
  apply Z.pow_le_mono_r; lia.
Qed.

(** Rounding never produces NaN, keeps the sign, and its mantissa fits in
    53 bits. *)
Lemma binary_round_aux_shape (s : bool) (m e : Z) (l : location) :
  0 <= m ->
  match binary_round_aux JS.prec JS.emax s m e l with
  | S754_zero s' | S754_infinity s' => s' = s
  | S754_finite s' m' _ => s' = s /\ Zpos m' < 2 ^ 53
  | S754_nan => False
  end.
Proof.
  intros Hm. unfold binary_round_aux.
  pose proof (shr_fexp_fits m e l Hm) as H1.
  destruct (shr_fexp JS.prec JS.emax m e l) as [mrs' e']. simpl fst in H1.
  pose proof (round_nearest_even_bounds (shr_m mrs') (loc_of_shr_record mrs')) as Hr.
  set (m2 := round_nearest_even (shr_m mrs') (loc_of_shr_record mrs')) in *.
  assert (Hm2 : 0 <= m2) by lia.
  pose proof (shr_fexp_fits m2 e' loc_Exact Hm2) as H2.
  destruct (shr_fexp JS.prec JS.emax m2 e' loc_Exact) as [mrs'' e'']. simpl fst in H2.
  destruct (shr_m mrs'') as [|p|p]; [reflexivity| |lia].
  destruct (e'' <=? JS.emax - JS.prec); [split; [reflexivity|lia] | reflexivity].
Qed.

Lemma binary_round_shape (s : bool) (m : positive) (e : Z) :
  match binary_round JS.prec JS.emax s m e with
  | S754_zero s' | S754_infinity s' => s' = s
  | S754_finite s' m' _ => s' = s /\ Zpos m' < 2 ^ 53
  | S754_nan => False
  end.
Proof.
  unfold binary_round.
  destruct (shl_align m e _) as [mz ez].
  apply binary_round_aux_shape. lia.
Qed.

(** Rounding a positive value below one gives zero or a finite positive
    number whose exponent is at most -53, or exactly 2^52 * 2^-52 when
    the mantissa carried. *)
Lemma binary_round_below_one (m : positive) (e : Z) :
  Zpos m < 2 ^ (- e) ->
  binary_round JS.prec JS.emax false m e = S754_zero false
  \/ exists m' e',
       binary_round JS.prec JS.emax false m e = S754_finite false m' e'
       /\ Zpos m' < 2 ^ 53
       /\ (e' <= -53 \/ (e' = -52 /\ m' = 4503599627370496%positive)).
Proof.
  intros Hlt.
  assert (He : 0 <= - e).
  { destruct (Z.le_gt_cases 0 (- e)) as [H|H]; [exact H|].
    rewrite Z.pow_neg_r in Hlt by lia. lia. }
  assert (HD : Zpos (digits2_pos m) + e <= 0).
  { pose proof (Zdigits2_le (Zpos m) (- e)) as H. simpl in H. lia. }
  unfold binary_round.
  pose proof (shl_align_spec m e (fexp JS.prec JS.emax (Zpos (digits2_pos m) + e))) as Ha.
  destruct (shl_align m e _) as [mz ez]. destruct Ha as (Hez & _ & Hdig).
  rewrite fexp64 in Hez.
  unfold binary_round_aux.
  pose proof (shr_fexp_spec (Zpos mz) ez loc_Exact) as H1.
  pose proof (shr_fexp_fits (Zpos mz) ez loc_Exact) as F1.
  destruct (shr_fexp JS.prec JS.emax (Zpos mz) ez loc_Exact) as [mrs' e'].
  simpl fst in F1. specialize (H1 ltac:(lia)). specialize (F1 ltac:(lia)).
  destruct H1 as [He' _].
  simpl Zdigits2 in He'. rewrite fexp64 in He'.
  pose proof (round_nearest_even_bounds (shr_m mrs') (loc_of_shr_record mrs')) as Hr.
  set (m2 := round_nearest_even (shr_m mrs') (loc_of_shr_record mrs')) in *.
  change (2 ^ 53) with 9007199254740992 in *.
  assert (Hm2 : 0 <= m2 <= 9007199254740992) by lia.
  pose proof (shr_fexp_spec m2 e' loc_Exact) as H2.
  destruct (shr_fexp JS.prec JS.emax m2 e' loc_Exact) as [mrs'' e''].
  specialize (H2 ltac:(lia)). destruct H2 as [He'' Hm'']. rewrite fexp64 in He''.
  assert (Hf : e' <= -53 /\ -1074 <= e') by lia.
  destruct (Z.eq_dec m2 9007199254740992) as [Hcarry|Hno].
  - rewrite Hcarry in He'', Hm''. simpl Zdigits2 in He''.
    assert (He''1 : e'' = e' + 1) by lia.
    replace (e'' - e') with 1 in Hm'' by lia.
    change (9007199254740992 / 2 ^ 1) with 4503599627370496 in Hm''.
    rewrite Hm''. right. exists 4503599627370496%positive, e''.
    replace (e'' <=? JS.emax - JS.prec) with true
      by (symmetry; apply Z.leb_le; unfold JS.emax, JS.prec; lia).
    split; [reflexivity|]. split; [lia|]. lia.
  - assert (Hd2 : Zdigits2 m2 <= 53).
    { apply Zdigits2_le; lia. }
    assert (He''0 : e'' = e') by lia.
    rewrite He''0, Z.sub_diag in Hm''. simpl in Hm''. rewrite Z.div_1_r in Hm''.
    rewrite Hm''. destruct m2 as [|p|p]; [now left| |lia].
    right. exists p, e''.
    replace (e'' <=? JS.emax - JS.prec) with true
      by (symmetry; apply Z.leb_le; unfold JS.emax, JS.prec; lia).
    split; [reflexivity|]. split; [lia|]. left. lia.
Qed.

(** Comparison of two positive finite numbers, by exponent and then by
    mantissa. *)
Lemma SFcompare_positive (m : positive) (e : Z) (q : positive) (f : Z) :
  SFcompare (S754_finite false m e) (S754_finite false q f) =
    Some match e ?= f with
         | Lt => Lt
         | Gt => Gt
         | Eq => (m ?= q)%positive
         end.
Proof. reflexivity. Qed.

Lemma SFleb_positive (m : positive) (e : Z) (q : positive) (f : Z) :
  SFleb (S754_finite false m e) (S754_finite false q f) = true <->
  e < f \/ (e = f /\ Zpos m <= Zpos q).
Proof.
  unfold SFleb. rewrite SFcompare_positive.
  destruct (Z.compare_spec e f) as [He|He|He].
  - destruct (Pos.compare_spec m q) as [Hm|Hm|Hm];
      (split; [intros H; try discriminate; lia | intros H; try reflexivity; lia]).
  - split; [intros _; lia | reflexivity].
  - split; [discriminate | intros H; lia].
Qed.

Lemma SFltb_positive_swap (m : positive) (e : Z) (q : positive) (f : Z) :
  SFltb (S754_finite false q f) (S754_finite false m e)
  = negb (SFleb (S754_finite false m e) (S754_finite false q f)).
Proof.
  unfold SFltb, SFleb. rewrite !SFcompare_positive.
  rewrite (Z.compare_antisym e f), (Pos.compare_antisym m q).
  destruct (e ?= f); try reflexivity.
  destruct (m ?= q)%positive; reflexivity.
Qed.

Lemma leb_one_positive (m : positive) (e : Z) :
  JS.leb (S754_finite false m e) JS.one = true <->
  e < -52 \/ (e = -52 /\ Zpos m <= 4503599627370496).
Proof.
  unfold JS.leb, JS.one.
  exact (SFleb_positive m e 4503599627370496 (-52)).
Qed.

Lemma ltb_one_positive (m : positive) (e : Z) :
  JS.ltb JS.one (S754_finite false m e)
  = negb (JS.leb (S754_finite false m e) JS.one).
Proof.
  unfold JS.ltb, JS.leb, JS.one.
  exact (SFltb_positive_swap m e 4503599627370496 (-52)).
Qed.

Lemma in_unit_positive (m : positive) (e : Z) :
  in_unit_interval (S754_finite false m e) = JS.leb (S754_finite false m e) JS.one.
Proof. unfold in_unit_interval. apply andb_true_l. Qed.

Lemma in_unit_negative (m : positive) (e : Z) :
  in_unit_interval (S754_finite true m e) = false.
Proof. unfold in_unit_interval. apply andb_false_l. Qed.

(** A valid binary64 number in the unit interval satisfies the invariant. *)
Lemma zoom_ok_of_valid (z : JS.number) :
  valid_binary JS.prec JS.emax z = true ->
  in_unit_interval z = true ->
  zoom_ok z.
Proof.
  intros Hv Hu. split; [exact Hu|].
  destruct z as [s|s| |s m e].
  - exact I.
  - destruct s; discriminate.
  - discriminate.
  - destruct s; [rewrite in_unit_negative in Hu; discriminate|].
    rewrite in_unit_positive in Hu. apply leb_one_positive in Hu.
    unfold valid_binary, bounded, canonical_mantissa in Hv.
    apply andb_prop in Hv. destruct Hv as [Hc _].
    apply Z.eqb_eq in Hc. rewrite fexp64 in Hc.
    pose proof (digits2_pos_bounds m) as [_ Hlt].
    unfold magnitude_le_one. split; [lia|].
    destruct Hu as [He|[-> Hm]]; [|exact Hm].
    apply Z.lt_le_incl. eapply Z.lt_le_trans; [exact Hlt|].
    apply Z.pow_le_mono_r; lia.
Qed.

Lemma zoom_ok_finite (m : positive) (e : Z) :
  Zpos m < 2 ^ 53 ->
  e <= -53 \/ (e = -52 /\ Zpos m <= 4503599627370496) ->
  zoom_ok (S754_finite false m e).
Proof.
  intros Hm He. split.
  - rewrite in_unit_positive. apply leb_one_positive. lia.
  - unfold magnitude_le_one. split; [lia|]. destruct He as [He|[-> Hle]]; [|exact Hle].
    apply Z.lt_le_incl. eapply Z.lt_le_trans; [exact Hm|].
    apply Z.pow_le_mono_r; lia.
Qed.

Lemma zoom_ok_zero (s : bool) : zoom_ok (S754_zero s).
Proof. split; [reflexivity | exact I]. Qed.

Lemma zoom_ok_one : zoom_ok JS.one.
Proof. split; [reflexivity | unfold JS.one, magnitude_le_one; lia]. Qed.

Lemma zoom_ok_tenth : zoom_ok JS.tenth.
Proof. split; [reflexivity | unfold JS.tenth, magnitude_le_one; lia]. Qed.

(** [Math.min(r, 1)] and [Math.max(r, 0)] on the possible results of the
    addition and of the subtraction. *)
Lemma Math_min_one_positive (m : positive) (e : Z) :
  JS.Math_min (S754_finite false m e) JS.one
  = if JS.ltb JS.one (S754_finite false m e) then JS.one else S754_finite false m e.
Proof. reflexivity. Qed.

Lemma Math_max_zero_positive (m : positive) (e : Z) :
  JS.Math_max (S754_finite false m e) JS.zero = S754_finite false m e.
Proof. reflexivity. Qed.

Lemma Math_max_zero_negative (m : positive) (e : Z) :
  JS.Math_max (S754_finite true m e) JS.zero = JS.zero.
Proof. reflexivity. Qed.

(** One zoom-in step keeps the invariant. *)
Lemma zoomIn_ok (z : JS.number) :
  zoom_ok z -> zoom_ok (JS.Math_min (JS.add z JS.tenth) JS.one).
Proof.
  intros [Hu Hmag].
  destruct z as [s|s| |s m e].
  - change (JS.Math_min (JS.add (S754_zero s) JS.tenth) JS.one) with JS.tenth.
    apply zoom_ok_tenth.
  - contradiction.
  - contradiction.
  - destruct s; [rewrite in_unit_negative in Hu; discriminate|].
    unfold JS.add, SFadd, JS.tenth, cond_Zopp.
    set (ez := Z.min e (-56)).
    destruct (shl_align m e ez) as [x ex].
    destruct (shl_align 7205759403792794 (-56) ez) as [c ec].
    cbv beta iota delta [fst].
    change (Zpos x + Zpos c) with (Zpos (x + c)).
    unfold binary_normalize.
    pose proof (binary_round_shape false (x + c) ez) as Hr.
    destruct (binary_round JS.prec JS.emax false (x + c) ez) as [s'|s'| |s' m' e'].
    + subst s'. apply zoom_ok_zero.
    + subst s'. apply zoom_ok_one.
    + contradiction.
    + destruct Hr as [-> Hm'].
      rewrite Math_min_one_positive, ltb_one_positive.
      destruct (JS.leb (S754_finite false m' e') JS.one) eqn:Hin; cbv beta iota delta [negb].
      * apply leb_one_positive in Hin. apply zoom_ok_finite; [exact Hm'|lia].
      * apply zoom_ok_one.
Qed.

(** One zoom-out step keeps the invariant. *)
Lemma zoomOut_ok (z : JS.number) :
  zoom_ok z -> zoom_ok (JS.Math_max (JS.sub z JS.tenth) JS.zero).
Proof.
  intros [Hu Hmag].
  destruct z as [s|s| |s m e].
  - change (JS.Math_max (JS.sub (S754_zero s) JS.tenth) JS.zero) with JS.zero.
    apply zoom_ok_zero.
  - contradiction.
  - contradiction.
  - destruct s; [rewrite in_unit_negative in Hu; discriminate|].
    unfold magnitude_le_one in Hmag. destruct Hmag as [He Hm].
    unfold JS.sub, SFsub, JS.tenth, cond_Zopp.
    set (ez := Z.min e (-56)).
    pose proof (shl_align_spec m e ez) as Hx.
    destruct (shl_align m e ez) as [x ex].
    destruct (shl_align 7205759403792794 (-56) ez) as [c ec].
    destruct Hx as (Hex & Hxv & _).
    cbv beta iota delta [fst].
    assert (Hxlt : Zpos x <= 2 ^ (- ez)).
    { rewrite Hxv. replace ex with ez by lia.
      replace (- ez) with (- e + (e - ez)) by lia.
      rewrite Z.pow_add_r by lia.
      apply Z.mul_le_mono_nonneg_r; [apply Z.pow_nonneg; lia | exact Hm]. }
    unfold binary_normalize.
    destruct (Zpos x - Zpos c) as [|p|p] eqn:Hd.
    + apply zoom_ok_zero.
    + destruct (binary_round_below_one p ez) as [Hr|(m' & e' & Hr & Hm' & He')];
        [lia| |]; rewrite Hr.
      * apply zoom_ok_zero.
      * rewrite Math_max_zero_positive.
        apply zoom_ok_finite; [exact Hm'|].
        destruct He' as [He'|[He' ->]]; [left; exact He' | right; split; [exact He'|lia]].
    + pose proof (binary_round_shape true p ez) as Hr.
      destruct (binary_round JS.prec JS.emax true p ez) as [s'|s'| |s' m' e'].
      * subst s'. apply zoom_ok_zero.
      * subst s'. apply zoom_ok_zero.
      * contradiction.
      * destruct Hr as [-> _]. rewrite Math_max_zero_negative. apply zoom_ok_zero.
Qed.

Lemma zoom_after_ok (ops : list ZoomOp) (s : Session) :
  zoom_ok (zoom s) -> zoom_ok (zoom (zoom_after ops s)).
Proof.
  revert s. induction ops as [|op ops IH]; intros s H; [exact H|].
  apply IH. destruct op.
  - exact (zoomIn_ok (zoom s) H).
  - exact (zoomOut_ok (zoom s) H).
Qed.

(** Ten zoom-in steps from the initial zoom stop just below one, as
    repeated addition of 0.1 does in binary64; the eleventh is clamped. *)
Example zoomIn_ten_times :
  zoom (zoom_after (repeat ZoomIn 10) initial)
  = S754_finite false 9007199254740991 (-53).
Proof. vm_compute. reflexivity. Qed.

Example zoomIn_eleven_times :
  zoom (zoom_after (repeat ZoomIn 11) initial) = JS.one.
Proof. vm_compute. reflexivity. Qed.

Example zoomOut_from_initial :
  zoom (zoom_after [ZoomOut] initial) = JS.zero.
Proof. vm_compute. reflexivity. Qed.

(** C3. From every zoom value in [0, 1], every finite sequence of [zoomIn]
    and [zoomOut] ends with a zoom value in [0, 1].  A JavaScript number
    is a binary64 datum, which is what [valid_binary] says of the start
    value: [spec_float] also has mantissa and exponent pairs that no
    number denotes. *)
Theorem zoom_stays_in_unit_interval (ops : list ZoomOp) (s : Session) :
  valid_binary JS.prec JS.emax (zoom s) = true ->
  in_unit_interval (zoom s) = true ->
  in_unit_interval (zoom (zoom_after ops s)) = true.
Proof.
  intros Hv Hu.
  apply (zoom_after_ok ops s (zoom_ok_of_valid (zoom s) Hv Hu)).
Qed.

Lemma zoom_stays_in_unit_interval_witness :
  in_unit_interval
    (zoom (zoom_after [ZoomIn; ZoomIn; ZoomOut; ZoomIn] (setZoom (fun _ => JS.one) initial)))
  = true.
Proof.
  apply (zoom_stays_in_unit_interval [ZoomIn; ZoomIn; ZoomOut; ZoomIn]
           (setZoom (fun _ => JS.one) initial));
    reflexivity.
Defined.

End Zoom.

(** * Further properties of the component *)

(** ** Whole runs *)

(** Only the two zoom handlers write the zoom, and they keep [zoom_ok]. *)
Lemma press_keeps_zoom_ok (cb : Callback) (cam : bool) (ext : External) (s : Session) :
  zoom_ok (zoom s) -> zoom_ok (zoom (final_state (run (press cb cam ext) s))).
Proof.
  intros H. destruct cb; unfold press.
  - exact H.
  - exact (zoomIn_ok (zoom s) H).
  - exact (zoomOut_ok (zoom s) H).
  - unfold run, startRecording, try_catch, bind, await, final_state.
    destruct cam; [|exact H].
    destruct (camera_startRecording ext); exact H.
  - unfold run, stopRecording, try_catch, bind, await, final_state.
    destruct (cam && isRecording s); [|exact H].
    destruct (camera_stopRecording ext); exact H.
  - unfold run, takePhoto, try_catch, bind, await, final_state.
    destruct cam; [|exact H].
    destruct (camera_takePhoto ext) as [fp|]; [|exact H].
    cbv beta iota.
    destruct (RNFS_mkdir ext (captureFolderPath ext)) as [[]|]; [|exact H].
    cbv beta iota.
    destruct (RNFS_moveFile ext fp (newFilePath ext)) as [[]|]; exact H.
  - exact H.
Qed.

Lemma step_keeps_zoom_ok (hasPermission : bool)
    (useCameraDevice : CameraPosition -> option CameraDevice)
    (s s' : Session) (l l' : list Effect) (i : Input) :
  step hasPermission useCameraDevice (s, l) i = Some (s', l') ->
  zoom_ok (zoom s) -> zoom_ok (zoom s').
Proof.
  intros Hstep H. destruct i as [cb ext|p|e]; unfold step in Hstep.
  - destruct (offered hasPermission useCameraDevice cb s); [|discriminate].
    rewrite press_appends in Hstep. injection Hstep as <- _.
    apply press_keeps_zoom_ok, H.
  - injection Hstep as <- _. exact H.
  - injection Hstep as <- _. exact H.
Qed.

Lemma steps_keep_zoom_ok (hasPermission : bool)
    (useCameraDevice : CameraPosition -> option CameraDevice)
    (inputs : list Input) (w w' : Session * list Effect) :
  steps hasPermission useCameraDevice w inputs = Some w' ->
  zoom_ok (zoom (fst w)) -> zoom_ok (zoom (fst w')).
Proof.
  revert w. induction inputs as [|i rest IH]; intros w Hs H; simpl in Hs.
  - injection Hs as <-. exact H.
  - destruct (step hasPermission useCameraDevice w i) as [w1|] eqn:H1; [|discriminate].
    apply (IH w1 Hs). destruct w as [s l], w1 as [s1 l1].
    exact (step_keeps_zoom_ok _ _ _ _ _ _ _ H1 H).
Qed.

(** The camera screen, once permission is granted and a device is found. *)
Lemma render_screen (useCameraDevice : CameraPosition -> option CameraDevice)
    (device : CameraDevice) (s : Session) :
  useCameraDevice (cameraType s) = Some device ->
  render true useCameraDevice s =
    View ([render_media device s]
          ++ when (negb (JS.truthy (mediaUri s))) (render_controls s)
          ++ when (JS.truthy (mediaUri s))
               [TouchableOpacity cb_clearCapture [Text "Back"]])%list.
Proof. intros H. unfold render. rewrite H. reflexivity. Qed.

(** The zoom prop of a mounted camera is the session's zoom. *)
Lemma camera_zooms_render (hasPermission : bool)
    (useCameraDevice : CameraPosition -> option CameraDevice) (s : Session) :
  camera_zooms (render hasPermission useCameraDevice s) = []
  \/ camera_zooms (render hasPermission useCameraDevice s) = [zoom s].
Proof.
  destruct hasPermission; [|left; reflexivity].
  destruct (useCameraDevice (cameraType s)) as [d|] eqn:Hd;
    [|left; unfold render; rewrite Hd; reflexivity].
  rewrite (render_screen useCameraDevice d s Hd).
  set (R := (when (negb (JS.truthy (mediaUri s))) (render_controls s)
             ++ when (JS.truthy (mediaUri s))
                  [TouchableOpacity cb_clearCapture [Text "Back"]])%list).
  assert (Hrest : flat_map camera_zooms R = []).
  { unfold R. destruct (JS.truthy (mediaUri s)); [reflexivity|].
    unfold render_controls. destruct (isRecording s); reflexivity. }
  assert (Hc : camera_zooms (View ([render_media d s] ++ R))
               = camera_zooms (render_media d s)).
  { change (camera_zooms (View ([render_media d s] ++ R)))
      with (camera_zooms (render_media d s) ++ flat_map camera_zooms R)%list.
    now rewrite Hrest, app_nil_r. }
  rewrite Hc. unfold render_media.
  destruct (mediaUri s) as [uri|]; [|right; reflexivity].
  destruct (JS.truthy (Some uri)); [|right; reflexivity].
  destruct (JS.endsWith uri ".jpg"); left; reflexivity.
Qed.

(** X1. Along every run of taps and recording callbacks that starts from a
    session whose zoom is a binary64 number in [0, 1], the zoom stays in
    [0, 1], and so does the [zoom] prop of every camera that the view
    mounts. *)
Theorem reachable_zoom_in_unit_interval (hasPermission : bool)
    (useCameraDevice : CameraPosition -> option CameraDevice)
    (inputs : list Input) (s s' : Session) (l l' : list Effect) :
  valid_binary JS.prec JS.emax (zoom s) = true ->
  in_unit_interval (zoom s) = true ->
  steps hasPermission useCameraDevice (s, l) inputs = Some (s', l') ->
  in_unit_interval (zoom s') = true
  /\ Forall (fun z => in_unit_interval z = true)
       (camera_zooms (render hasPermission useCameraDevice s')).
Proof.
  intros Hv Hu Hs.
  assert (Hok : zoom_ok (zoom s')).
  { apply (steps_keep_zoom_ok _ _ _ _ _ Hs). apply zoom_ok_of_valid; assumption. }
  destruct Hok as [Hin _]. split; [exact Hin|].
  destruct (camera_zooms_render hasPermission useCameraDevice s') as [-> | ->].
  - constructor.
  - constructor; [exact Hin | constructor].
Qed.

Lemma reachable_zoom_in_unit_interval_witness :
  in_unit_interval (zoom (setZoom (fun _ => JS.tenth) recording)) = true
  /\ Forall (fun z => in_unit_interval z = true)
       (camera_zooms (render true any_device (setZoom (fun _ => JS.tenth) recording))).
Proof.
  apply (reachable_zoom_in_unit_interval true any_device
           [Tap cb_zoomIn ext_ok; Tap cb_startRecording ext_ok]
           initial (setZoom (fun _ => JS.tenth) recording)
           [] [CameraStartRecording]);
    reflexivity.
Defined.

(** What a handler leaves in [mediaUri]: its old value, [null], or a
    [file://] URI. *)
Lemma press_mediaUri (cb : Callback) (cam : bool) (ext : External) (s : Session) :
  mediaUri (final_state (run (press cb cam ext) s)) = mediaUri s
  \/ file_uri_or_null (mediaUri (final_state (run (press cb cam ext) s))).
Proof.
  destruct cb; unfold press; try (left; reflexivity).
  - left. unfold run, startRecording, try_catch, bind, await, final_state.
    destruct cam; [|reflexivity].
    destruct (camera_startRecording ext); reflexivity.
  - left. unfold run, stopRecording, try_catch, bind, await, final_state.
    destruct (cam && isRecording s); [|reflexivity].
    destruct (camera_stopRecording ext); reflexivity.
  - unfold run, takePhoto, try_catch, bind, await, final_state.
    destruct cam; [|left; reflexivity].
    destruct (camera_takePhoto ext) as [fp|]; [|left; reflexivity].
    cbv beta iota.
    destruct (RNFS_mkdir ext (captureFolderPath ext)) as [[]|]; [|left; reflexivity].
    cbv beta iota.
    destruct (RNFS_moveFile ext fp (newFilePath ext)) as [[]|]; [|left; reflexivity].
    right. right. exists (newFilePath ext). reflexivity.
  - right. left. reflexivity.
Qed.

Lemma step_keeps_file_uri (hasPermission : bool)
    (useCameraDevice : CameraPosition -> option CameraDevice)
    (s s' : Session) (l l' : list Effect) (i : Input) :
  step hasPermission useCameraDevice (s, l) i = Some (s', l') ->
  file_uri_or_null (mediaUri s) -> file_uri_or_null (mediaUri s').
Proof.
  intros Hstep H. destruct i as [cb ext|p|e]; unfold step in Hstep.
  - destruct (offered hasPermission useCameraDevice cb s); [|discriminate].
    rewrite press_appends in Hstep. injection Hstep as <- _.
    destruct (press_mediaUri cb (cameraRef_of hasPermission useCameraDevice s) ext s)
      as [-> | H']; assumption.
  - injection Hstep as <- _. right. exists p. reflexivity.
  - injection Hstep as <- _. exact H.
Qed.

Lemma file_uri_truthy_iff (v : option string) :
  file_uri_or_null v -> (JS.truthy v = true <-> v <> None).
Proof.
  intros [-> | [p ->]].
  - split; [discriminate | congruence].
  - split; [discriminate | reflexivity].
Qed.

(** X2. Along every run that starts without captured media, the
    captured-media reference is [null] or a URI that starts with
    [file://]; it is never the empty string, so it is truthy exactly when
    it is not [null]. *)
Theorem reachable_mediaUri_is_file_uri (hasPermission : bool)
    (useCameraDevice : CameraPosition -> option CameraDevice)
    (inputs : list Input) (s s' : Session) (l l' : list Effect) :
  mediaUri s = None ->
  steps hasPermission useCameraDevice (s, l) inputs = Some (s', l') ->
  (mediaUri s' = None \/ exists path, mediaUri s' = Some ("file://" ++ path))
  /\ mediaUri s' <> Some ""
  /\ (JS.truthy (mediaUri s') = true <-> mediaUri s' <> None).
Proof.
  intros Hnone Hs.
  assert (H : file_uri_or_null (mediaUri s')).
  { assert (H0 : file_uri_or_null (mediaUri (fst (s, l)))) by (left; exact Hnone).
    revert H0 Hs. generalize (s, l) as w. clear Hnone.
    induction inputs as [|i rest IH]; intros w H0 Hs; simpl in Hs.
    - injection Hs as ->. exact H0.
    - destruct (step hasPermission useCameraDevice w i) as [w1|] eqn:H1; [|discriminate].
      apply (IH w1); [|exact Hs]. destruct w as [s0 l0], w1 as [s1 l1].
      exact (step_keeps_file_uri _ _ _ _ _ _ _ H1 H0). }
  split; [exact H|]. split.
  - destruct H as [-> | [p ->]]; discriminate.
  - apply file_uri_truthy_iff, H.
Qed.

Lemma reachable_mediaUri_is_file_uri_witness :
  let s' := setMediaUri (Some ("file://" ++ newFilePath ext_ok)) initial in
  (mediaUri s' = None \/ exists path, mediaUri s' = Some ("file://" ++ path))
  /\ mediaUri s' <> Some ""
  /\ (JS.truthy (mediaUri s') = true <-> mediaUri s' <> None).
Proof.
  apply (reachable_mediaUri_is_file_uri true any_device [Tap cb_takePhoto ext_ok]
           initial _ []
           [CameraTakePhoto; Mkdir (captureFolderPath ext_ok);
            MoveFile "/tmp/photo-1.jpg" (newFilePath ext_ok)]);
    reflexivity.
Defined.

(** X3. While a captured asset is under review, the only tap that the
    screen accepts is Back; it clears the reference and calls no
    collaborator. *)
Theorem review_accepts_only_back (hasPermission : bool)
    (useCameraDevice : CameraPosition -> option CameraDevice)
    (cb : Callback) (ext : External) (s s' : Session) (l l' : list Effect) :
  JS.truthy (mediaUri s) = true ->
  step hasPermission useCameraDevice (s, l) (Tap cb ext) = Some (s', l') ->
  cb = cb_clearCapture /\ s' = setMediaUri None s /\ l' = l.
Proof.
  intros Ht Hstep. unfold step, offered in Hstep.
  rewrite callbacks_render, Ht in Hstep.
  destruct hasPermission; [|discriminate].
  destruct (useCameraDevice (cameraType s)); [|discriminate].
  destruct cb; try discriminate.
  simpl in Hstep. injection Hstep as <- <-. repeat split.
Qed.

Lemma review_accepts_only_back_witness :
  let s := setMediaUri (Some "file:///tmp/clip.mov") initial in
  cb_clearCapture = cb_clearCapture /\ initial = setMediaUri None s
  /\ @nil Effect = [].
Proof.
  apply (review_accepts_only_back true any_device cb_clearCapture ext_ok
           (setMediaUri (Some "file:///tmp/clip.mov") initial) initial [] []);
    reflexivity.
Defined.

(** X4. A view that offers a control other than Back mounts the camera:
    in a user-driven run the [cameraRef.current] guard of [startRecording],
    [stopRecording] and [takePhoto] always finds the camera. *)
Theorem capture_controls_imply_camera (hasPermission : bool)
    (useCameraDevice : CameraPosition -> option CameraDevice)
    (cb : Callback) (s : Session) :
  offered hasPermission useCameraDevice cb s = true ->
  cb <> cb_clearCapture ->
  cameraRef_of hasPermission useCameraDevice s = true.
Proof.
  unfold offered, cameraRef_of. rewrite callbacks_render.
  destruct hasPermission; [|discriminate].
  destruct (useCameraDevice (cameraType s)) as [d|] eqn:Hd; [|discriminate].
  destruct (JS.truthy (mediaUri s)) eqn:Ht.
  - destruct cb; simpl; try discriminate. congruence.
  - intros _ _. rewrite (render_screen useCameraDevice d s Hd).
    unfold render_media. destruct (mediaUri s) as [uri|]; [|reflexivity].
    rewrite Ht. reflexivity.
Qed.

Lemma capture_controls_imply_camera_witness :
  cameraRef_of true any_device recording = true.
Proof.
  apply (capture_controls_imply_camera true any_device cb_takePhoto recording);
    [reflexivity | discriminate].
Defined.

(** Without a mounted camera the three capture handlers do nothing: no
    collaborator is called, nothing is reported and the session is
    unchanged, whatever the collaborators would have answered. *)
Lemma capture_handlers_without_camera (ext : External) (s : Session) :
  run (startRecording false ext) s = (Normal tt, s, [])
  /\ run (stopRecording false ext) s = (Normal tt, s, [])
  /\ run (takePhoto false ext) s = (Normal tt, s, []).
Proof. repeat split. Qed.

(** ** Recording life cycle *)

(** X5. [stopRecording] during a recording calls the camera's
    [stopRecording] once and never writes the session, whether the call
    resolves or rejects: the flag stays true until a recording callback
    clears it.  A rejection is reported by one alert. *)
Theorem stopRecording_while_recording (ext : External) (s : Session) :
  isRecording s = true ->
  final_state (run (stopRecording true ext) s) = s
  /\ List.length (filter is_stop (effects (run (stopRecording true ext) s))) = 1%nat
  /\ (camera_stopRecording ext = Resolved tt ->
      effects (run (stopRecording true ext) s) = [CameraStopRecording])
  /\ (forall error, camera_stopRecording ext = Rejected error ->
      effects (run (stopRecording true ext) s) =
        [CameraStopRecording; ConsoleError "Failed to stop recording:" error;
         AlertAlert "Error" "Failed to stop recording."]).
Proof.
  intros H. unfold run, stopRecording, try_catch, bind, await, final_state, effects.
  rewrite H. simpl.
  destruct (camera_stopRecording ext) as [[]|e]; simpl; repeat split;
    try discriminate; intros; congruence.
Qed.

Lemma stopRecording_while_recording_witness :
  final_state (run (stopRecording true ext_ok) recording) = recording
  /\ List.length (filter is_stop (effects (run (stopRecording true ext_ok) recording))) = 1%nat
  /\ (camera_stopRecording ext_ok = Resolved tt ->
      effects (run (stopRecording true ext_ok) recording) = [CameraStopRecording])
  /\ (forall error, camera_stopRecording ext_ok = Rejected error ->
      effects (run (stopRecording true ext_ok) recording) =
        [CameraStopRecording; ConsoleError "Failed to stop recording:" error;
         AlertAlert "Error" "Failed to stop recording."]).
Proof. apply (stopRecording_while_recording ext_ok recording). reflexivity. Defined.

(** X6. A start that fails is rolled back.  From a session that is not
    recording, [startRecording] whose camera call throws ends in the
    session it started from; and when the call is accepted and the camera
    later reports an error, [onRecordingError] restores that session. *)
Theorem failed_start_restores_session (ext : External) (s : Session) :
  isRecording s = false ->
  (forall thrown, camera_startRecording ext = Rejected thrown ->
     final_state (run (startRecording true ext) s) = s)
  /\ (camera_startRecording ext = Resolved tt ->
      forall error,
        final_state (run (onRecordingError error)
                       (final_state (run (startRecording true ext) s))) = s).
Proof.
  intros H. destruct s as [c z m r]. simpl in H. subst r. split.
  - intros thrown Hs.
    unfold run, startRecording, try_catch, bind, await, final_state.
    rewrite Hs. reflexivity.
  - intros Hs error. rewrite (startRecording_accepted_run ext _ Hs). reflexivity.
Qed.

Lemma failed_start_restores_session_witness :
  (forall thrown, camera_startRecording ext_start_fails = Rejected thrown ->
     final_state (run (startRecording true ext_start_fails) initial) = initial)
  /\ (camera_startRecording ext_start_fails = Resolved tt ->
      forall error,
        final_state (run (onRecordingError error)
                       (final_state (run (startRecording true ext_start_fails) initial)))
        = initial).
Proof. apply (failed_start_restores_session ext_start_fails initial). reflexivity. Defined.

(** An accepted tap runs the handler bound to the control. *)
Lemma step_tap (hasPermission : bool)
    (useCameraDevice : CameraPosition -> option CameraDevice)
    (cb : Callback) (ext : External) (s : Session) (l : list Effect) :
  offered hasPermission useCameraDevice cb s = true ->
  step hasPermission useCameraDevice (s, l) (Tap cb ext) =
    Some (final_state (run (press cb (cameraRef_of hasPermission useCameraDevice s) ext) s),
          (l ++ effects (run (press cb (cameraRef_of hasPermission useCameraDevice s) ext) s))%list).
Proof.
  intros H. unfold step. rewrite H, press_appends. reflexivity.
Qed.

(** In the live preview the camera is mounted. *)
Lemma live_preview_mounts_camera
    (useCameraDevice : CameraPosition -> option CameraDevice)
    (device : CameraDevice) (s : Session) :
  useCameraDevice (cameraType s) = Some device ->
  JS.truthy (mediaUri s) = false ->
  cameraRef_of true useCameraDevice s = true.
Proof.
  intros Hd Ht. unfold cameraRef_of.
  rewrite (render_screen useCameraDevice device s Hd).
  unfold render_media. destruct (mediaUri s) as [uri|]; [|reflexivity].
  rewrite Ht. reflexivity.
Qed.

(** X7. A whole recording through the screen.  From the live preview of a
    session that is not recording, with collaborators that accept the
    calls: the tap on Record Video is accepted, after it the view offers
    Stop Recording and not Record Video, the tap on Stop Recording is
    accepted, and when the camera then reports the finished video the
    session references it, is no longer recording, and the camera was
    started once and stopped once. *)
Theorem record_stop_finish (useCameraDevice : CameraPosition -> option CameraDevice)
    (device : CameraDevice) (ext1 ext2 : External) (video_path : string)
    (s : Session) (l : list Effect) :
  useCameraDevice (cameraType s) = Some device ->
  JS.truthy (mediaUri s) = false ->
  isRecording s = false ->
  camera_startRecording ext1 = Resolved tt ->
  camera_stopRecording ext2 = Resolved tt ->
  steps true useCameraDevice (s, l)
    [Tap cb_startRecording ext1; Tap cb_stopRecording ext2;
     (RecordingFinished video_path)]
  = Some (setIsRecording false (setMediaUri (Some ("file://" ++ video_path)) s),
          (l ++ [CameraStartRecording; CameraStopRecording])%list)
  /\ offered true useCameraDevice cb_stopRecording (setIsRecording true s) = true
  /\ offered true useCameraDevice cb_startRecording (setIsRecording true s) = false.
Proof.
  intros Hd Ht Hr H1 H2.
  assert (Hoff1 : offered true useCameraDevice cb_startRecording s = true).
  { unfold offered. rewrite callbacks_render, Hd, Ht, Hr. reflexivity. }
  assert (Hoff2 : offered true useCameraDevice cb_stopRecording (setIsRecording true s) = true).
  { unfold offered. rewrite callbacks_render. simpl. rewrite Hd, Ht. reflexivity. }
  split; [|split; [exact Hoff2 | apply startRecording_not_offered; reflexivity]].
  assert (S1 : step true useCameraDevice (s, l) (Tap cb_startRecording ext1)
               = Some (setIsRecording true s, (l ++ [CameraStartRecording])%list)).
  { rewrite (step_tap _ _ _ _ _ _ Hoff1).
    rewrite (live_preview_mounts_camera useCameraDevice device s Hd Ht).
    unfold press. rewrite (startRecording_accepted_run ext1 s H1). reflexivity. }
  assert (S2 : step true useCameraDevice
                 (setIsRecording true s, (l ++ [CameraStartRecording])%list)
                 (Tap cb_stopRecording ext2)
               = Some (setIsRecording true s,
                       ((l ++ [CameraStartRecording]) ++ [CameraStopRecording])%list)).
  { rewrite (step_tap _ _ _ _ _ _ Hoff2).
    rewrite (live_preview_mounts_camera useCameraDevice device (setIsRecording true s) Hd Ht).
    unfold press, run, stopRecording, try_catch, await, final_state, effects.
    simpl. rewrite H2. reflexivity. }
  unfold steps. rewrite S1, S2. rewrite <- app_assoc. reflexivity.
Qed.

Lemma record_stop_finish_witness :
  steps true any_device (initial, [])
    [Tap cb_startRecording ext_ok; Tap cb_stopRecording ext_ok;
     (RecordingFinished "/tmp/clip.mov")]
  = Some (setIsRecording false (setMediaUri (Some ("file://" ++ "/tmp/clip.mov")) initial),
          ([] ++ [CameraStartRecording; CameraStopRecording])%list)
  /\ offered true any_device cb_stopRecording (setIsRecording true initial) = true
  /\ offered true any_device cb_startRecording (setIsRecording true initial) = false.
Proof.
  apply (record_stop_finish any_device {| device_id := "device-0" |} ext_ok ext_ok
           "/tmp/clip.mov" initial []);
    reflexivity.
Defined.

(** ** Photo capture through the screen *)

(** X8. Capture, review, back.  From the live preview of a session
    without captured media, a successful Capture Photo tap is accepted and
    leads to the review view, which shows the new file as a still image
    together with the Back control and nothing else; the Back tap is then
    accepted and restores the session exactly, the log keeping the three
    calls of the capture. *)
Theorem capture_review_back (useCameraDevice : CameraPosition -> option CameraDevice)
    (device : CameraDevice) (ext ext' : External) (filePath : string)
    (s : Session) (l : list Effect) :
  useCameraDevice (cameraType s) = Some device ->
  mediaUri s = None ->
  camera_takePhoto ext = Resolved filePath ->
  capture_step_fails ext = false ->
  let uri := "file://" ++ newFilePath ext in
  let l1 := (l ++ [CameraTakePhoto; Mkdir (captureFolderPath ext);
                   MoveFile filePath (newFilePath ext)])%list in
  step true useCameraDevice (s, l) (Tap cb_takePhoto ext)
    = Some (setMediaUri (Some uri) s, l1)
  /\ render true useCameraDevice (setMediaUri (Some uri) s)
     = View [Image uri; TouchableOpacity cb_clearCapture [Text "Back"]]
  /\ steps true useCameraDevice (s, l) [Tap cb_takePhoto ext; Tap cb_clearCapture ext']
     = Some (s, l1).
Proof.
  intros Hd Hm Hfp Hok uri l1.
  assert (Ht : JS.truthy (mediaUri s) = false) by (rewrite Hm; reflexivity).
  assert (Hoff : offered true useCameraDevice cb_takePhoto s = true).
  { unfold offered. rewrite callbacks_render, Hd, Ht.
    destruct (isRecording s); reflexivity. }
  assert (S1 : step true useCameraDevice (s, l) (Tap cb_takePhoto ext)
               = Some (setMediaUri (Some uri) s, l1)).
  { rewrite (step_tap _ _ _ _ _ _ Hoff).
    rewrite (live_preview_mounts_camera useCameraDevice device s Hd Ht).
    unfold press. rewrite (takePhoto_success_run ext s filePath Hfp Hok). reflexivity. }
  assert (Hr : render true useCameraDevice (setMediaUri (Some uri) s)
               = View [Image uri; TouchableOpacity cb_clearCapture [Text "Back"]]).
  { rewrite (render_review useCameraDevice device (setMediaUri (Some uri) s) uri
               Hd eq_refl (file_uri_truthy _)).
    unfold uri. rewrite endsWith_file_uri. unfold newFilePath.
    rewrite <- !string_app_assoc, endsWith_app. reflexivity. }
  split; [exact S1|]. split; [exact Hr|].
  assert (Hoff2 : offered true useCameraDevice cb_clearCapture (setMediaUri (Some uri) s) = true).
  { unfold offered. rewrite Hr. reflexivity. }
  unfold steps. rewrite S1, (step_tap _ _ _ _ _ _ Hoff2).
  unfold press, run, clearCapture, update, final_state, effects. simpl.
  rewrite app_nil_r. destruct s as [c z m r]. simpl in Hm. subst m. reflexivity.
Qed.

Lemma capture_review_back_witness :
  let uri := "file://" ++ newFilePath ext_ok in
  let l1 := ([] ++ [CameraTakePhoto; Mkdir (captureFolderPath ext_ok);
                    MoveFile "/tmp/photo-1.jpg" (newFilePath ext_ok)])%list in
  step true any_device (initial, []) (Tap cb_takePhoto ext_ok)
    = Some (setMediaUri (Some uri) initial, l1)
  /\ render true any_device (setMediaUri (Some uri) initial)
     = View [Image uri; TouchableOpacity cb_clearCapture [Text "Back"]]
  /\ steps true any_device (initial, []) [Tap cb_takePhoto ext_ok; Tap cb_clearCapture ext_ok]
     = Some (initial, l1).
Proof.
  apply (capture_review_back any_device {| device_id := "device-0" |} ext_ok ext_ok
           "/tmp/photo-1.jpg" initial []);
    reflexivity.
Defined.

(** X9. A file is moved only by a capture whose photo was taken and
    whose directory creation succeeded: whenever the log of a handler
    contains a move, the handler is [takePhoto] with the camera mounted,
    the source is the path of the photo, the destination is the [.jpg]
    path inside the capture folder, and the log starts with the capture,
    the creation of that folder and the move, in this order. *)
Theorem moveFile_only_after_mkdir (cb : Callback) (cam : bool) (ext : External)
    (s : Session) (src dst : string) :
  In (MoveFile src dst) (effects (run (press cb cam ext) s)) ->
  cb = cb_takePhoto /\ cam = true
  /\ camera_takePhoto ext = Resolved src
  /\ RNFS_mkdir ext (captureFolderPath ext) = Resolved tt
  /\ dst = newFilePath ext
  /\ JS.endsWith dst ".jpg" = true
  /\ exists rest,
       effects (run (press cb cam ext) s) =
         ([CameraTakePhoto; Mkdir (captureFolderPath ext); MoveFile src dst] ++ rest)%list.
Proof.
  assert (Hjpg : JS.endsWith (newFilePath ext) ".jpg" = true).
  { unfold newFilePath. rewrite <- !string_app_assoc. apply endsWith_app. }
  destruct cb; unfold press, run, effects.
  - simpl. tauto.
  - simpl. tauto.
  - simpl. tauto.
  - unfold startRecording, try_catch, bind, await.
    destruct cam; simpl; [|tauto].
    destruct (camera_startRecording ext); simpl; intuition discriminate.
  - unfold stopRecording, try_catch, await.
    destruct (cam && isRecording s); simpl; [|tauto].
    destruct (camera_stopRecording ext); simpl; intuition discriminate.
  - unfold takePhoto, try_catch, bind, await.
    destruct cam; simpl; [|tauto].
    destruct (camera_takePhoto ext) as [fp|]; simpl; [|intuition discriminate].
    destruct (RNFS_mkdir ext (captureFolderPath ext)) as [[]|]; simpl;
      [|intuition discriminate].
    destruct (RNFS_moveFile ext fp (newFilePath ext)) as [[]|]; simpl.
    + intros [H|[H|[H|[]]]]; try discriminate. injection H as <- <-.
      repeat split; try assumption. exists []. reflexivity.
    + intros [H|[H|[H|[H|[H|[]]]]]]; try discriminate. injection H as <- <-.
      repeat split; try assumption. eexists. reflexivity.
  - simpl. tauto.
Qed.

Lemma moveFile_only_after_mkdir_witness :
  cb_takePhoto = cb_takePhoto /\ true = true
  /\ camera_takePhoto ext_move_fails = Resolved "/tmp/photo-1.jpg"
  /\ RNFS_mkdir ext_move_fails (captureFolderPath ext_move_fails) = Resolved tt
  /\ newFilePath ext_move_fails = newFilePath ext_move_fails
  /\ JS.endsWith (newFilePath ext_move_fails) ".jpg" = true
  /\ exists rest,
       effects (run (press cb_takePhoto true ext_move_fails) initial) =
         ([CameraTakePhoto; Mkdir (captureFolderPath ext_move_fails);
           MoveFile "/tmp/photo-1.jpg" (newFilePath ext_move_fails)] ++ rest)%list.
Proof.
  apply (moveFile_only_after_mkdir cb_takePhoto true ext_move_fails initial
           "/tmp/photo-1.jpg" (newFilePath ext_move_fails)).
  simpl. right; right; left. reflexivity.
Defined.

(** X10. Nothing is reported unless something failed: when every call
    resolves, no handler writes to the console or shows an alert. *)
Theorem no_report_when_all_resolve (cb : Callback) (cam : bool) (ext : External)
    (s : Session) :
  all_resolve ext ->
  filter is_report (effects (run (press cb cam ext) s)) = [].
Proof.
  intros ([fp Hp] & Hs & Ht & Hmk & Hmv).
  destruct cb; unfold press, run, effects; try reflexivity.
  - unfold startRecording, try_catch, bind, await.
    destruct cam; [|reflexivity]. simpl. rewrite Hs. reflexivity.
  - unfold stopRecording, try_catch, await.
    destruct (cam && isRecording s); [|reflexivity]. simpl. rewrite Ht. reflexivity.
  - unfold takePhoto, try_catch, bind, await.
    destruct cam; [|reflexivity]. simpl. rewrite Hp. simpl.
    rewrite Hmk. simpl. rewrite Hmv. reflexivity.
Qed.

Lemma no_report_when_all_resolve_witness :
  filter is_report (effects (run (press cb_takePhoto true ext_ok) initial)) = [].
Proof.
  apply (no_report_when_all_resolve cb_takePhoto true ext_ok initial).
  unfold all_resolve. repeat split. exists "/tmp/photo-1.jpg". reflexivity.
Defined.

(** ** The blocking views *)

(** Without permission, or without a device for the lens, no control is
    offered. *)
Lemma blocked_offers_nothing (hasPermission : bool)
    (useCameraDevice : CameraPosition -> option CameraDevice)
    (cb : Callback) (s : Session) :
  blocked hasPermission useCameraDevice s ->
  offered hasPermission useCameraDevice cb s = false.
Proof.
  intros [-> | H]; unfold offered; rewrite callbacks_render.
  - reflexivity.
  - rewrite H. destruct hasPermission; reflexivity.
Qed.

(** X11. The blocking views.  When permission is missing, or no device is
    found for the current lens, the component renders the static message
    alone, the permission message when both are missing: no camera is
    mounted and no captured asset is shown, even when one is referenced,
    and the view offers no control, so every tap is refused. *)
Theorem blocked_view_refuses_taps (hasPermission : bool)
    (useCameraDevice : CameraPosition -> option CameraDevice) (s : Session) :
  blocked hasPermission useCameraDevice s ->
  render hasPermission useCameraDevice s =
    View [Text (if hasPermission then "No camera available."
                else "Please grant camera permission.")]
  /\ mounts_camera (render hasPermission useCameraDevice s) = false
  /\ shows_image (render hasPermission useCameraDevice s) = false
  /\ shows_video_controls (render hasPermission useCameraDevice s) = false
  /\ callbacks (render hasPermission useCameraDevice s) = []
  /\ forall cb ext l,
       step hasPermission useCameraDevice (s, l) (Tap cb ext) = None.
Proof.
  intros Hb.
  assert (Hr : render hasPermission useCameraDevice s =
               View [Text (if hasPermission then "No camera available."
                           else "Please grant camera permission.")]).
  { unfold render. destruct hasPermission; [|reflexivity].
    destruct Hb as [Hp | Hd]; [discriminate|]. simpl. now rewrite Hd. }
  split; [exact Hr|]. rewrite Hr. repeat split.
  intros cb ext l. unfold step.
  now rewrite (blocked_offers_nothing hasPermission useCameraDevice cb s Hb).
Qed.

Lemma blocked_view_refuses_taps_witness :
  let s := setMediaUri (Some "file:///tmp/clip.mov") initial in
  render true (fun _ => None) s =
    View [Text (if true then "No camera available."
                else "Please grant camera permission.")]
  /\ mounts_camera (render true (fun _ => None) s) = false
  /\ shows_image (render true (fun _ => None) s) = false
  /\ shows_video_controls (render true (fun _ => None) s) = false
  /\ callbacks (render true (fun _ => None) s) = []
  /\ forall cb ext l, step true (fun _ => None) (s, l) (Tap cb ext) = None.
Proof.
  apply (blocked_view_refuses_taps true (fun _ => None)
           (setMediaUri (Some "file:///tmp/clip.mov") initial)).
  right. reflexivity.
Defined.



(** ** Who writes which cell *)

(** X13. In one step of a run, the lens facing changes only by a tap on
    Switch, the zoom only by a tap on Zoom In or Zoom Out, the
    captured-media reference only by a tap on Capture Photo or Back or by
    the finished-recording callback, and the recording flag rises only by a
    tap on Record Video whose camera call was accepted. *)
Theorem step_frame (hasPermission : bool)
    (useCameraDevice : CameraPosition -> option CameraDevice)
    (s s' : Session) (l l' : list Effect) (i : Input) :
  step hasPermission useCameraDevice (s, l) i = Some (s', l') ->
  (cameraType s' <> cameraType s -> exists ext, i = Tap cb_toggleCameraType ext)
  /\ (zoom s' <> zoom s ->
      exists ext, i = Tap cb_zoomIn ext \/ i = Tap cb_zoomOut ext)
  /\ (mediaUri s' <> mediaUri s ->
      (exists ext, i = Tap cb_takePhoto ext \/ i = Tap cb_clearCapture ext)
      \/ exists path, i = RecordingFinished path)
  /\ (isRecording s = false -> isRecording s' = true ->
      exists ext, i = Tap cb_startRecording ext
                  /\ camera_startRecording ext = Resolved tt).
Proof.
  intros Hstep. destruct i as [cb ext|p|e]; unfold step in Hstep.
  - destruct (offered hasPermission useCameraDevice cb s); [|discriminate].
    rewrite press_appends in Hstep. injection Hstep as <- _.
    set (cam := cameraRef_of hasPermission useCameraDevice s).
    destruct cb; unfold press, run, final_state.
    + simpl. repeat split; try (intros; exfalso; congruence).
      intros _. exists ext; reflexivity.
    + simpl. repeat split; try (intros; exfalso; congruence).
      intros _; exists ext; left; reflexivity.
    + simpl. repeat split; try (intros; exfalso; congruence).
      intros _; exists ext; right; reflexivity.
    + unfold startRecording, try_catch, bind, await.
      destruct cam; simpl; [|repeat split; intros; exfalso; congruence].
      destruct (camera_startRecording ext) as [[]|] eqn:Hstart; simpl;
        repeat split; try (intros; exfalso; congruence).
      intros _ _; exists ext; split; [reflexivity | exact Hstart].
    + unfold stopRecording, try_catch, await.
      destruct (cam && isRecording s); simpl;
        [|repeat split; intros; exfalso; congruence].
      destruct (camera_stopRecording ext); simpl;
        repeat split; intros; exfalso; congruence.
    + unfold takePhoto, try_catch, bind, await.
      assert (Hm : exists ext0, Tap cb_takePhoto ext = Tap cb_takePhoto ext0
                                \/ Tap cb_takePhoto ext = Tap cb_clearCapture ext0)
        by (exists ext; left; reflexivity).
      destruct cam; simpl; [|repeat split; intros; exfalso; congruence].
      destruct (camera_takePhoto ext) as [fp|]; simpl;
        [|repeat split; intros; exfalso; congruence].
      destruct (RNFS_mkdir ext (captureFolderPath ext)) as [[]|]; simpl;
        [|repeat split; intros; exfalso; congruence].
      destruct (RNFS_moveFile ext fp (newFilePath ext)) as [[]|]; simpl;
        repeat split; try (intros; exfalso; congruence).
      intros _. left. exact Hm.
    + simpl. repeat split; try (intros; exfalso; congruence).
      intros _; left; exists ext; right; reflexivity.
  - injection Hstep as <- _. simpl. repeat split; try (intros; exfalso; congruence).
    intros _; right; exists p; reflexivity.
  - injection Hstep as <- _. simpl. repeat split; intros; exfalso; congruence.
Qed.

Lemma step_frame_witness :
  (cameraType recording <> cameraType initial ->
     exists ext, Tap cb_startRecording ext_ok = Tap cb_toggleCameraType ext)
  /\ (zoom recording <> zoom initial ->
      exists ext, Tap cb_startRecording ext_ok = Tap cb_zoomIn ext
                  \/ Tap cb_startRecording ext_ok = Tap cb_zoomOut ext)
  /\ (mediaUri recording <> mediaUri initial ->
      (exists ext, Tap cb_startRecording ext_ok = Tap cb_takePhoto ext
                   \/ Tap cb_startRecording ext_ok = Tap cb_clearCapture ext)
      \/ exists path, Tap cb_startRecording ext_ok = RecordingFinished path)
  /\ (isRecording initial = false -> isRecording recording = true ->
      exists ext, Tap cb_startRecording ext_ok = Tap cb_startRecording ext
                  /\ camera_startRecording ext = Resolved tt).
Proof.
  apply (step_frame true any_device initial recording [] [CameraStartRecording]
           (Tap cb_startRecording ext_ok)).
  reflexivity.
Defined.

(** ** The permission effect *)

Lemma deps_unchanged (h : PermissionHook) : deps_changed h h = false.
Proof.
  unfold deps_changed. now rewrite Bool.eqb_reflx, Nat.eqb_refl.
Qed.

Lemma rerender_effects_bound (prev : PermissionHook) (renders : list PermissionHook) :
  (List.length (rerender_effects prev renders) <= denied_renders renders)%nat.
Proof.
  revert prev. induction renders as [|cur rest IH]; intros prev; [apply le_n|].
  unfold denied_renders in *. simpl. rewrite length_app.
  specialize (IH cur).
  destruct (deps_changed prev cur); unfold permission_effect;
    destruct (hasPermission_value cur); simpl; lia.
Qed.

(** X14. Permission is requested by the effect only.  While the two
    values returned by the permission hook stay what they were in the
    first render, the request made after that render, if permission was
    missing, is the only one: re-rendering does not repeat it.  In
    general there is at most one request per render in which permission
    was missing, and none while permission is granted throughout. *)
Theorem permission_requested_without_retry (first : PermissionHook)
    (rest : list PermissionHook) :
  (Forall (fun h => h = first) rest ->
     permission_requests first rest =
       if hasPermission_value first then []
       else [RequestPermission (requestPermission_ref first)])
  /\ (List.length (permission_requests first rest) <= denied_renders (first :: rest))%nat
  /\ (Forall (fun h => hasPermission_value h = true) (first :: rest) ->
      permission_requests first rest = []).
Proof.
  split; [|split].
  - intros Hall.
    assert (Hre : rerender_effects first rest = []).
    { induction Hall as [|h rest' -> _ IH]; [reflexivity|].
      simpl. now rewrite deps_unchanged, IH. }
    unfold permission_requests. rewrite Hre, app_nil_r.
    unfold permission_effect. destruct (hasPermission_value first); reflexivity.
  - unfold permission_requests. rewrite length_app.
    pose proof (rerender_effects_bound first rest) as Hb.
    unfold denied_renders in *. simpl. unfold permission_effect.
    destruct (hasPermission_value first); simpl; lia.
  - intros Hall.
    pose proof (rerender_effects_bound first rest) as Hb.
    unfold permission_requests.
    inversion Hall as [|h t Hf Hrest]; subst.
    unfold permission_effect at 1. rewrite Hf. simpl.
    assert (Hz : denied_renders rest = 0%nat).
    { unfold denied_renders. clear Hb Hall.
      induction Hrest as [|h t Hh _ IH]; [reflexivity|]. simpl. now rewrite Hh. }
    rewrite Hz in Hb. destruct (rerender_effects first rest); [reflexivity|].
    simpl in Hb. lia.
Qed.

Section ZoomSteps.

Local Open Scope Z_scope.

(** ** More on the rounding of zoom values *)

(** The stages of [binary_round] for binary64, as one statement: the
    target exponent [f], the mantissa [m1] cut at that exponent, the
    rounded mantissa [m2], and the result, renormalised when the rounding
    carried into the 54th bit. *)
Lemma binary_round_cases (s : bool) (P : positive) (e : Z) :
  let D := Zpos (digits2_pos P) + e in
  let f := Z.max (D - 53) (-1074) in
  exists m1 m2 : Z,
    m1 = (if f <=? e then Zpos P * 2 ^ (e - f) else Zpos P / 2 ^ (f - e))
    /\ 0 <= m1 < 2 ^ 53
    /\ (f <= D - 1 -> 2 ^ (D - 1 - f) <= m1)
    /\ m1 <= m2 <= m1 + 1
    /\ (f <= e -> m2 = m1)
    /\ binary_round JS.prec JS.emax s P e =
         if m2 =? 9007199254740992 then
           if f + 1 <=? 971 then S754_finite s 4503599627370496 (f + 1)
           else S754_infinity s
         else
           match m2 with
           | Z0 => S754_zero s
           | Zpos p => if f <=? 971 then S754_finite s p f else S754_infinity s
           | Zneg _ => S754_nan
           end.
Proof.
  intros D f.
  unfold binary_round.
  pose proof (shl_align_spec P e (fexp JS.prec JS.emax (Zpos (digits2_pos P) + e))) as Ha.
  destruct (shl_align P e _) as [mz ez]. destruct Ha as (Hez & Hmz & Hdig).
  rewrite fexp64 in Hez. fold D in Hez, Hdig. fold f in Hez.
  unfold binary_round_aux.
  pose proof (shr_fexp_spec (Zpos mz) ez loc_Exact ltac:(lia)) as H1.
  pose proof (shr_fexp_fits (Zpos mz) ez loc_Exact ltac:(lia)) as F1.
  assert (Hexact : ez = f -> shr_fexp JS.prec JS.emax (Zpos mz) ez loc_Exact
                            = ({| shr_m := Zpos mz; shr_r := false; shr_s := false |}, ez)).
  { intros Hef. unfold shr_fexp, shr. rewrite fexp64.
    change (Zdigits2 (Zpos mz)) with (Zpos (digits2_pos mz)).
    rewrite Hdig. fold f. rewrite <- Hef, Z.sub_diag. reflexivity. }
  destruct (shr_fexp JS.prec JS.emax (Zpos mz) ez loc_Exact) as [mrs' e'].
  simpl fst in F1. destruct H1 as [He' Hm1].
  change (Zdigits2 (Zpos mz)) with (Zpos (digits2_pos mz)) in He'.
  rewrite fexp64, Hdig in He'. fold f in He'.
  assert (He'f : e' = f) by lia. clear He'. subst e'.
  pose proof (round_nearest_even_bounds (shr_m mrs') (loc_of_shr_record mrs')) as Hr.
  assert (Hexact2 : f <= e ->
            round_nearest_even (shr_m mrs') (loc_of_shr_record mrs') = shr_m mrs').
  { intros Hfe. assert (Hef : ez = f) by lia.
    specialize (Hexact Hef). injection Hexact as -> _. reflexivity. }
  set (m2 := round_nearest_even (shr_m mrs') (loc_of_shr_record mrs')) in *.
  exists (shr_m mrs'), m2.
  split.
  { rewrite Hm1, Hmz. destruct (Z.leb_spec f e) as [Hfe|Hfe].
    - replace ez with f by lia. rewrite Z.sub_diag.
      change (2 ^ 0) with 1. now rewrite Z.div_1_r.
    - replace ez with e by lia. rewrite Z.sub_diag.
      change (2 ^ 0) with 1. now rewrite Z.mul_1_r. }
  split; [exact F1|].
  split.
  { intros HfD. rewrite Hm1.
    apply Z.div_le_lower_bound; [apply Z.pow_pos_nonneg; lia|].
    rewrite <- Z.pow_add_r by lia.
    pose proof (digits2_pos_bounds mz) as [Hlo _].
    eapply Z.le_trans; [|exact Hlo].
    apply Z.pow_le_mono_r; lia. }
  split; [exact Hr|]. split; [exact Hexact2|].
  pose proof (shr_fexp_spec m2 f loc_Exact ltac:(lia)) as H2.
  destruct (shr_fexp JS.prec JS.emax m2 f loc_Exact) as [mrs'' e''].
  destruct H2 as [He'' Hm'']. rewrite fexp64 in He''.
  assert (Hf : -1074 <= f) by lia.
  destruct (Z.eqb_spec m2 9007199254740992) as [Hcarry|Hno].
  - rewrite Hcarry in He'', Hm''. simpl Zdigits2 in He''.
    assert (He''1 : e'' = f + 1) by lia.
    replace (e'' - f) with 1 in Hm'' by lia.
    change (9007199254740992 / 2 ^ 1) with 4503599627370496 in Hm''.
    rewrite Hm'', He''1. reflexivity.
  - assert (Hd2 : Zdigits2 m2 <= 53) by (apply Zdigits2_le; lia).
    assert (He''0 : e'' = f) by lia.
    rewrite He''0, Z.sub_diag in Hm''. simpl in Hm''. rewrite Z.div_1_r in Hm''.
    rewrite Hm'', He''0. reflexivity.
Qed.

Lemma digits2_pos_ge (p : positive) (n : Z) :
  2 ^ n <= Zpos p -> n + 1 <= Zpos (digits2_pos p).
Proof.
  intros H. destruct (Z.le_gt_cases 0 n) as [Hn|Hn]; [|lia].
  pose proof (digits2_pos_bounds p) as [_ Hhi].
  assert (Hlt : 2 ^ n < 2 ^ Zpos (digits2_pos p)) by lia.
  apply Z.pow_lt_mono_r_iff in Hlt; lia.
Qed.

Lemma digits2_pos_le (p : positive) (n : Z) :
  0 <= n -> Zpos p < 2 ^ n -> Zpos (digits2_pos p) <= n.
Proof. intros Hn H. exact (Zdigits2_le (Zpos p) n ltac:(lia) Hn H). Qed.

(** The result of [binary_round] is a binary64 datum. *)
Lemma binary_round_valid (s : bool) (P : positive) (e : Z) :
  valid_binary JS.prec JS.emax (binary_round JS.prec JS.emax s P e) = true.
Proof.
  destruct (binary_round_cases s P e) as (m1 & m2 & _ & Hm1 & Hlow & Hm2 & _ & ->).
  set (D := Zpos (digits2_pos P) + e) in *.
  set (f := Z.max (D - 53) (-1074)) in *.
  destruct (Z.eqb_spec m2 9007199254740992) as [Hc|Hn].
  - destruct (Z.leb_spec (f + 1) 971) as [Hle|Hgt]; [|reflexivity].
    unfold valid_binary, bounded, canonical_mantissa. rewrite fexp64.
    change (Zpos (digits2_pos 4503599627370496)) with 53.
    apply andb_true_intro. split; [apply Z.eqb_eq; lia | apply Z.leb_le; exact Hle].
  - destruct m2 as [|p|p]; [reflexivity| |lia].
    destruct (Z.leb_spec f 971) as [Hle|Hgt]; [|reflexivity].
    unfold valid_binary, bounded, canonical_mantissa. rewrite fexp64.
    assert (Hp : Zpos (digits2_pos p) <= 53) by (apply digits2_pos_le; lia).
    apply andb_true_intro. split; [apply Z.eqb_eq | apply Z.leb_le; exact Hle].
    destruct (Z.eq_dec f (-1074)) as [Hf|Hf]; [lia|].
    assert (HfD : f = D - 53) by lia.
    assert (Hlo : 2 ^ 52 <= m1).
    { replace 52 with (D - 1 - f) by lia. apply Hlow. lia. }
    assert (Hdp : 52 + 1 <= Zpos (digits2_pos p)) by (apply digits2_pos_ge; lia).
    lia.
Qed.

Lemma binary_normalize_valid (m e : Z) (szero : bool) :
  valid_binary JS.prec JS.emax (binary_normalize JS.prec JS.emax m e szero) = true.
Proof.
  destruct m; [reflexivity | apply binary_round_valid | apply binary_round_valid].
Qed.

Lemma add_tenth_valid (z : JS.number) :
  valid_binary JS.prec JS.emax z = true ->
  valid_binary JS.prec JS.emax (JS.add z JS.tenth) = true.
Proof.
  intros Hv. destruct z as [s|s| |s m e]; try reflexivity.
  unfold JS.add, SFadd, JS.tenth. apply binary_normalize_valid.
Qed.

Lemma sub_tenth_valid (z : JS.number) :
  valid_binary JS.prec JS.emax z = true ->
  valid_binary JS.prec JS.emax (JS.sub z JS.tenth) = true.
Proof.
  intros Hv. destruct z as [s|s| |s m e]; try reflexivity.
  unfold JS.sub, SFsub, JS.tenth. apply binary_normalize_valid.
Qed.

(** [Math.min] and [Math.max] return one of their arguments, NaN, or the
    infinity they start from. *)
Lemma Math_min_valid (a b : JS.number) :
  valid_binary JS.prec JS.emax a = true ->
  valid_binary JS.prec JS.emax b = true ->
  valid_binary JS.prec JS.emax (JS.Math_min a b) = true.
Proof.
  intros Ha Hb. unfold JS.Math_min, JS.min_step.
  destruct (JS.is_nan a || JS.is_nan b); [reflexivity|].
  destruct (JS.is_neg_zero a && JS.is_pos_zero (S754_infinity false));
    [|destruct (JS.ltb a (S754_infinity false))].
  - destruct (JS.is_neg_zero b && JS.is_pos_zero a); [exact Hb|].
    destruct (JS.ltb b a); assumption.
  - destruct (JS.is_neg_zero b && JS.is_pos_zero a); [exact Hb|].
    destruct (JS.ltb b a); assumption.
  - destruct (JS.is_neg_zero b && JS.is_pos_zero (S754_infinity false)); [exact Hb|].
    destruct (JS.ltb b (S754_infinity false)); [exact Hb | reflexivity].
Qed.

Lemma Math_max_valid (a b : JS.number) :
  valid_binary JS.prec JS.emax a = true ->
  valid_binary JS.prec JS.emax b = true ->
  valid_binary JS.prec JS.emax (JS.Math_max a b) = true.
Proof.
  intros Ha Hb. unfold JS.Math_max, JS.max_step.
  destruct (JS.is_nan a || JS.is_nan b); [reflexivity|].
  destruct (JS.is_pos_zero a && JS.is_neg_zero (S754_infinity true));
    [|destruct (JS.ltb (S754_infinity true) a)].
  - destruct (JS.is_pos_zero b && JS.is_neg_zero a); [exact Hb|].
    destruct (JS.ltb a b); assumption.
  - destruct (JS.is_pos_zero b && JS.is_neg_zero a); [exact Hb|].
    destruct (JS.ltb a b); assumption.
  - destruct (JS.is_pos_zero b && JS.is_neg_zero (S754_infinity true)); [exact Hb|].
    destruct (JS.ltb (S754_infinity true) b); [exact Hb | reflexivity].
Qed.

Lemma zoom_steps_valid (z : JS.number) :
  valid_binary JS.prec JS.emax z = true ->
  valid_binary JS.prec JS.emax (JS.Math_min (JS.add z JS.tenth) JS.one) = true
  /\ valid_binary JS.prec JS.emax (JS.Math_max (JS.sub z JS.tenth) JS.zero) = true.
Proof.
  intros Hv. split.
  - apply Math_min_valid; [apply add_tenth_valid, Hv | reflexivity].
  - apply Math_max_valid; [apply sub_tenth_valid, Hv | reflexivity].
Qed.

Lemma digits2_pos_mono (p q : positive) :
  Zpos p <= Zpos q -> Zpos (digits2_pos p) <= Zpos (digits2_pos q).
Proof.
  intros H.
  pose proof (digits2_pos_bounds p) as [Hlo _].
  pose proof (digits2_pos_bounds q) as [_ Hhi].
  assert (Hlt : 2 ^ (Zpos (digits2_pos p) - 1) < 2 ^ Zpos (digits2_pos q)) by lia.
  apply Z.pow_lt_mono_r_iff in Hlt; lia.
Qed.

(** What validity says of a finite binary64 number. *)
Lemma valid_finite (s : bool) (m : positive) (e : Z) :
  valid_binary JS.prec JS.emax (S754_finite s m e) = true ->
  Z.max (Zpos (digits2_pos m) + e - 53) (-1074) = e.
Proof.
  unfold valid_binary, bounded, canonical_mantissa. rewrite fexp64.
  intros H. apply andb_prop in H. destruct H as [H _]. now apply Z.eqb_eq in H.
Qed.

(** One zoom-in step does not lower a zoom value of the unit interval. *)
Lemma zoomIn_monotone (z : JS.number) :
  valid_binary JS.prec JS.emax z = true ->
  in_unit_interval z = true ->
  JS.leb z (JS.Math_min (JS.add z JS.tenth) JS.one) = true.
Proof.
  intros Hv Hu.
  destruct z as [s|s| |s m e].
  - change (JS.Math_min (JS.add (S754_zero s) JS.tenth) JS.one) with JS.tenth.
    reflexivity.
  - destruct s; discriminate.
  - discriminate.
  - destruct s; [rewrite in_unit_negative in Hu; discriminate|].
    rewrite in_unit_positive in Hu.
    apply valid_finite in Hv.
    unfold JS.add, SFadd, JS.tenth, cond_Zopp.
    set (ez := Z.min e (-56)).
    pose proof (shl_align_spec m e ez) as Hx.
    destruct (shl_align m e ez) as [x ex].
    destruct (shl_align 7205759403792794 (-56) ez) as [c ec].
    destruct Hx as (Hex & Hxv & Hxd).
    assert (Hexz : ex = ez) by lia. clear Hex. subst ex.
    cbv beta iota delta [fst].
    change (Zpos x + Zpos c) with (Zpos (x + c)).
    unfold binary_normalize.
    destruct (binary_round_cases false (x + c) ez)
      as (m1 & m2 & Hm1 & Hm1b & Hlow & Hm2 & _ & ->).
    set (D := Zpos (digits2_pos (x + c)) + ez) in *.
    set (f := Z.max (D - 53) (-1074)) in *.
    assert (HD : Zpos (digits2_pos m) + e <= D).
    { unfold D. rewrite <- Hxd.
      pose proof (digits2_pos_mono x (x + c) ltac:(lia)). lia. }
    assert (Hfe : e <= f) by lia.
    assert (Hm1pos : 1 <= m1).
    { assert (H0 : 2 ^ (D - 1 - f) <= m1).
      { apply Hlow. pose proof (Pos2Z.is_pos (digits2_pos m)). lia. }
      assert (H1 : 0 < 2 ^ (D - 1 - f)).
      { apply Z.pow_pos_nonneg; [lia|].
        pose proof (Pos2Z.is_pos (digits2_pos m)). lia. }
      lia. }
    assert (Hmm1 : f = e -> Zpos m <= m1).
    { intros Hf. rewrite Hm1, Hf.
      destruct (Z.leb_spec e ez) as [Hle|Hgt].
      - replace (ez - e) with 0 by lia. replace (e - ez) with 0 in Hxv by lia.
        change (2 ^ 0) with 1 in *. lia.
      - rewrite <- (Z.div_mul (Zpos m) (2 ^ (e - ez)))
          by (apply Z.pow_nonzero; lia).
        apply Z.div_le_mono; [apply Z.pow_pos_nonneg; lia|].
        rewrite <- Hxv. lia. }
    destruct (Z.eqb_spec m2 9007199254740992) as [Hc|Hn].
    + destruct (Z.leb_spec (f + 1) 971) as [Hle|Hgt].
      * rewrite Math_min_one_positive.
        destruct (JS.ltb JS.one (S754_finite false 4503599627370496 (f + 1)));
          [exact Hu|].
        unfold JS.leb. apply SFleb_positive. lia.
      * exact Hu.
    + destruct m2 as [|p|p]; [lia| |lia].
      destruct (Z.leb_spec f 971) as [Hle|Hgt]; [|exact Hu].
      rewrite Math_min_one_positive.
      destruct (JS.ltb JS.one (S754_finite false p f)); [exact Hu|].
      unfold JS.leb. apply SFleb_positive.
      destruct (Z.eq_dec f e) as [Hf|Hf]; [|lia].
      right. split; [lia|]. specialize (Hmm1 Hf). lia.
Qed.

(** One zoom-out step does not raise a zoom value of the unit interval. *)
Lemma zoomOut_monotone (z : JS.number) :
  valid_binary JS.prec JS.emax z = true ->
  in_unit_interval z = true ->
  JS.leb (JS.Math_max (JS.sub z JS.tenth) JS.zero) z = true.
Proof.
  intros Hv Hu.
  destruct z as [s|s| |s m e].
  - change (JS.Math_max (JS.sub (S754_zero s) JS.tenth) JS.zero) with JS.zero.
    reflexivity.
  - destruct s; discriminate.
  - discriminate.
  - destruct s; [rewrite in_unit_negative in Hu; discriminate|].
    rewrite in_unit_positive in Hu. apply leb_one_positive in Hu.
    apply valid_finite in Hv.
    unfold JS.sub, SFsub, JS.tenth, cond_Zopp.
    set (ez := Z.min e (-56)).
    pose proof (shl_align_spec m e ez) as Hx.
    destruct (shl_align m e ez) as [x ex].
    destruct (shl_align 7205759403792794 (-56) ez) as [c ec].
    destruct Hx as (Hex & Hxv & Hxd).
    assert (Hexz : ex = ez) by lia. clear Hex. subst ex.
    cbv beta iota delta [fst].
    unfold binary_normalize.
    destruct (Zpos x - Zpos c) as [|P|P] eqn:Hd.
    + reflexivity.
    + destruct (binary_round_cases false P ez)
        as (m1 & m2 & Hm1 & Hm1b & Hlow & Hm2 & Hexact & ->).
      set (D := Zpos (digits2_pos P) + ez) in *.
      set (f := Z.max (D - 53) (-1074)) in *.
      assert (HD : D <= Zpos (digits2_pos m) + e).
      { unfold D. rewrite <- Hxd.
        pose proof (digits2_pos_mono P x ltac:(lia)). lia. }
      assert (Hfe : f <= e) by lia.
      assert (Hmm1 : f = e -> m2 <= Zpos m).
      { intros Hf. rewrite Hf in *.
        destruct (Z.leb_spec e ez) as [Hle|Hgt].
        - replace (ez - e) with 0 in Hm1 by lia.
          replace (e - ez) with 0 in Hxv by lia.
          replace (e <=? ez) with true in Hm1 by (symmetry; apply Z.leb_le; lia).
          change (2 ^ 0) with 1 in *. rewrite (Hexact ltac:(lia)). lia.
        - assert (Hlt : m1 < Zpos m).
          { rewrite Hm1. apply Z.div_lt_upper_bound; [apply Z.pow_pos_nonneg; lia|].
            rewrite Z.mul_comm, <- Hxv. lia. }
          lia. }
      pose proof (digits2_pos_bounds m) as [Hmlo Hmhi].
      destruct (Z.eqb_spec m2 9007199254740992) as [Hc|Hn].
      * assert (Hne : f <> e).
        { intros Hf. specialize (Hmm1 Hf).
          assert (Hdm : Zpos (digits2_pos m) <= 53) by lia.
          assert (Hm53 : Zpos m < 2 ^ 53).
          { eapply Z.lt_le_trans; [exact Hmhi|]. apply Z.pow_le_mono_r; lia. }
          lia. }
        replace (f + 1 <=? 971) with true by (symmetry; apply Z.leb_le; lia).
        rewrite Math_max_zero_positive. unfold JS.leb. apply SFleb_positive.
        destruct (Z.eq_dec (f + 1) e) as [Hf1|Hf1]; [|lia].
        right. split; [exact Hf1|].
        assert (Hdm : Zpos (digits2_pos m) = 53) by lia.
        rewrite Hdm in Hmlo. change (2 ^ (53 - 1)) with 4503599627370496 in Hmlo.
        exact Hmlo.
      * destruct m2 as [|p|p]; [reflexivity| |lia].
        replace (f <=? 971) with true by (symmetry; apply Z.leb_le; lia).
        rewrite Math_max_zero_positive. unfold JS.leb. apply SFleb_positive.
        destruct (Z.eq_dec f e) as [Hf|Hf]; [|lia].
        right. split; [exact Hf|]. exact (Hmm1 Hf).
    + pose proof (binary_round_shape true P ez) as Hr.
      destruct (binary_round JS.prec JS.emax true P ez) as [s'|s'| |s' m' e'].
      * subst s'. reflexivity.
      * subst s'. reflexivity.
      * contradiction.
      * destruct Hr as [-> _]. rewrite Math_max_zero_negative. reflexivity.
Qed.

(** The invariant of zoom sequences with validity added. *)
Lemma zoom_after_valid (ops : list ZoomOp) (s : Session) :
  valid_binary JS.prec JS.emax (zoom s) = true ->
  valid_binary JS.prec JS.emax (zoom (zoom_after ops s)) = true.
Proof.
  revert s. induction ops as [|op ops IH]; intros s H; [exact H|].
  apply IH. destruct op.
  - exact (proj1 (zoom_steps_valid (zoom s) H)).
  - exact (proj2 (zoom_steps_valid (zoom s) H)).
Qed.

Lemma zoom_after_app (ops1 ops2 : list ZoomOp) (s : Session) :
  zoom_after (ops1 ++ ops2) s = zoom_after ops2 (zoom_after ops1 s).
Proof. apply fold_left_app. Qed.

(** X15. Zoom In never lowers the zoom and Zoom Out never raises it, at
    any point of any sequence of zoom adjustments that starts from a
    binary64 zoom value in [0, 1]. *)
Theorem zoom_steps_monotone (ops : list ZoomOp) (s : Session) :
  valid_binary JS.prec JS.emax (zoom s) = true ->
  in_unit_interval (zoom s) = true ->
  JS.leb (zoom (zoom_after ops s)) (zoom (zoom_after (ops ++ [ZoomIn]) s)) = true
  /\ JS.leb (zoom (zoom_after (ops ++ [ZoomOut]) s)) (zoom (zoom_after ops s)) = true.
Proof.
  intros Hv Hu.
  pose proof (zoom_after_valid ops s Hv) as Hv1.
  pose proof (zoom_after_ok ops s (zoom_ok_of_valid (zoom s) Hv Hu)) as [Hu1 _].
  rewrite !zoom_after_app. split.
  - exact (zoomIn_monotone (zoom (zoom_after ops s)) Hv1 Hu1).
  - exact (zoomOut_monotone (zoom (zoom_after ops s)) Hv1 Hu1).
Qed.

Lemma zoom_steps_monotone_witness :
  JS.leb (zoom (zoom_after [ZoomIn; ZoomOut; ZoomIn] initial))
         (zoom (zoom_after ([ZoomIn; ZoomOut; ZoomIn] ++ [ZoomIn]) initial)) = true
  /\ JS.leb (zoom (zoom_after ([ZoomIn; ZoomOut; ZoomIn] ++ [ZoomOut]) initial))
            (zoom (zoom_after [ZoomIn; ZoomOut; ZoomIn] initial)) = true.
Proof.
  apply (zoom_steps_monotone [ZoomIn; ZoomOut; ZoomIn] initial); reflexivity.
Defined.

(** Comparison of a positive finite number with one tenth. *)
Lemma leb_tenth_positive (m : positive) (e : Z) :
  JS.leb (S754_finite false m e) JS.tenth = true <->
  e < -56 \/ (e = -56 /\ Zpos m <= 7205759403792794).
Proof.
  unfold JS.leb, JS.tenth.
  exact (SFleb_positive m e 7205759403792794 (-56)).
Qed.

(** X16. The lower clamp of [zoomOut] is active exactly below one tenth:
    from a binary64 zoom value in [0, 1], Zoom Out gives exactly 0 if and
    only if the zoom was at most 0.1 (the binary64 number nearest to one
    tenth, which is the step); otherwise the result is positive. *)
Theorem zoomOut_reaches_zero_iff (s : Session) :
  valid_binary JS.prec JS.emax (zoom s) = true ->
  in_unit_interval (zoom s) = true ->
  (zoom (final_state (run zoomOut s)) = JS.zero <-> JS.leb (zoom s) JS.tenth = true).
Proof.
  change (zoom (final_state (run zoomOut s)))
    with (JS.Math_max (JS.sub (zoom s) JS.tenth) JS.zero).
  generalize (zoom s) as z. clear s. intros z Hv Hu.
  destruct z as [s|s| |s m e].
  - change (JS.Math_max (JS.sub (S754_zero s) JS.tenth) JS.zero) with JS.zero.
    split; reflexivity.
  - destruct s; discriminate.
  - discriminate.
  - destruct s; [rewrite in_unit_negative in Hu; discriminate|].
    rewrite leb_tenth_positive.
    apply valid_finite in Hv.
    pose proof (digits2_pos_bounds m) as [Hmlo Hmhi].
    unfold JS.sub, SFsub, JS.tenth, cond_Zopp.
    set (ez := Z.min e (-56)).
    pose proof (shl_align_spec m e ez) as Hx.
    pose proof (shl_align_spec 7205759403792794 (-56) ez) as Hc.
    destruct (shl_align m e ez) as [x ex].
    destruct (shl_align 7205759403792794 (-56) ez) as [c ec].
    destruct Hx as (Hex & Hxv & Hxd). destruct Hc as (Hec & Hcv & _).
    assert (Hexz : ex = ez) by lia. clear Hex. subst ex.
    assert (Hecz : ec = ez) by lia. clear Hec. subst ec.
    cbv beta iota delta [fst].
    (* The sign of the exact difference decides the comparison. *)
    assert (Hsign : Zpos x <= Zpos c <->
                    e < -56 \/ (e = -56 /\ Zpos m <= 7205759403792794)).
    { rewrite Hxv, Hcv.
      destruct (Z.lt_trichotomy e (-56)) as [Hlt|[Heq|Hgt]].
      - replace (e - ez) with 0 by lia. change (2 ^ 0) with 1.
        assert (Hm53 : Zpos m < 2 ^ 53).
        { eapply Z.lt_le_trans; [exact Hmhi|]. apply Z.pow_le_mono_r; lia. }
        assert (Hp : 2 ^ 1 <= 2 ^ (-56 - ez)) by (apply Z.pow_le_mono_r; lia).
        change (2 ^ 1) with 2 in Hp. split; [intros _; lia|intros _]. nia.
      - replace (e - ez) with 0 by lia. replace (-56 - ez) with 0 by lia.
        change (2 ^ 0) with 1. lia.
      - replace (-56 - ez) with 0 by lia. change (2 ^ 0) with 1.
        assert (Hdm : Zpos (digits2_pos m) = 53) by lia.
        rewrite Hdm in Hmlo. change (2 ^ (53 - 1)) with 4503599627370496 in Hmlo.
        assert (Hp : 2 ^ 1 <= 2 ^ (e - ez)) by (apply Z.pow_le_mono_r; lia).
        change (2 ^ 1) with 2 in Hp. split; [intros H; nia | intros H; lia]. }
    unfold binary_normalize.
    destruct (Zpos x - Zpos c) as [|P|P] eqn:Hd.
    + split; [intros _; apply Hsign; lia | reflexivity].
    + destruct (binary_round_cases false P ez)
        as (m1 & m2 & _ & Hm1b & Hlow & Hm2 & _ & ->).
      set (D := Zpos (digits2_pos P) + ez) in *.
      set (f := Z.max (D - 53) (-1074)) in *.
      assert (Hm1pos : 1 <= m1).
      { pose proof (Pos2Z.is_pos (digits2_pos P)).
        assert (H0 : 2 ^ (D - 1 - f) <= m1) by (apply Hlow; lia).
        assert (H1 : 0 < 2 ^ (D - 1 - f)) by (apply Z.pow_pos_nonneg; lia).
        lia. }
      split; [|intros H; apply Hsign in H; lia].
      intros H. exfalso.
      destruct (m2 =? 9007199254740992).
      * destruct (f + 1 <=? 971); discriminate.
      * destruct m2 as [|p|p]; [lia| |lia].
        destruct (f <=? 971); discriminate.
    + split; [intros _; apply Hsign; lia|intros _].
      pose proof (binary_round_shape true P ez) as Hr.
      destruct (binary_round JS.prec JS.emax true P ez) as [s'|s'| |s' m' e'].
      * subst s'. reflexivity.
      * subst s'. reflexivity.
      * contradiction.
      * destruct Hr as [-> _]. apply Math_max_zero_negative.
Qed.

Lemma zoomOut_reaches_zero_iff_witness :
  zoom (final_state (run zoomOut (setZoom (fun _ => JS.tenth) initial))) = JS.zero
  <-> JS.leb (zoom (setZoom (fun _ => JS.tenth) initial)) JS.tenth = true.
Proof.
  apply (zoomOut_reaches_zero_iff (setZoom (fun _ => JS.tenth) initial)); reflexivity.
Defined.

End ZoomSteps.
